(** * skymap: star selection, Milky Way outline queries and grid drawing

    A shallow embedding of the parts of the [skymap] package that select
    catalogue records by coordinate range ([skymap/stars.py],
    [skymap/milkyway.py]), propagate star positions ([skymap/stars.py]) and
    enumerate grid lines ([skymap/mapmaker.py]), with the properties the
    specification states about them.

    Numbers.  Python floats that are only compared, floored or truncated are
    modelled as exact rationals ([Q]); the trigonometric code of the position
    propagation is modelled on the real numbers ([R]); the rectangle overlap
    metric, whose expected values are binary64 literals, and the rounding
    case of [propagate_position2] are modelled on binary64 floats.  Rounding of arithmetic and of number formatting inside
    query strings is not part of the [Q] and [R] models. *)

From Stdlib Require Import ZArith QArith Qround List String Ascii Bool Lia Lqa Lra.
From Stdlib Require Import Sorting.Sorted Sorting.Permutation.
From Stdlib Require Import Reals.
From Stdlib Require PrimFloat.
Import ListNotations.

(** ** Python results: a value or a raised exception *)

Module Py.

Inductive exn : Type :=
| AttributeError
| ValueError
| TypeError
| ZeroDivisionError
| ParseError.

Inductive result (A : Type) : Type :=
| Return (a : A)
| Raise (e : exn).

Arguments Return {A} a.
Arguments Raise {A} e.

Definition bind {A B : Type} (r : result A) (k : A -> result B) : result B :=
  match r with
  | Return a => k a
  | Raise e => Raise e
  end.

(** [try: body except AttributeError: handler] *)
Definition except_AttributeError {A : Type} (body : result A) (handler : result A)
  : result A :=
  match body with
  | Raise AttributeError => handler
  | other => other
  end.

(** [int(x)] on a number: truncation toward zero. *)
Definition int (x : Q) : Z := Z.quot (Qnum x) (Zpos (Qden x)).

(** [math.floor(x)]: the result is a float with an integral value. *)
Definition floor (x : Q) : Z := Qfloor x.

(** [range(start, stop, step)] of Python 2: the list of
    [start + k * step] before [stop]; a zero step raises [ValueError]. *)
Definition range (start stop step : Z) : result (list Z) :=
  if (step =? 0)%Z then Raise ValueError
  else
    let n :=
      if (0 <? step)%Z then ((stop - start + step - 1) / step)%Z
      else ((start - stop - step - 1) / (- step))%Z in
    Return (map (fun k => (start + Z.of_nat k * step)%Z) (seq 0 (Z.to_nat n))).

(** Comparison of two numbers with [<], [<=] and [==]. *)
Definition lt (a b : Q) : bool := negb (Qle_bool b a).
Definition le (a b : Q) : bool := Qle_bool a b.
Definition eq (a b : Q) : bool := Qeq_bool a b.

End Py.

Import Py.

(** ** skymap.geometry (angles) *)

Module Geometry.

Local Open Scope Q_scope.

(** Modelled from the spec: [ensure_angle_range] of [skymap/geometry.py],
    which is not among the sources; "returns [degrees mod 360], result in
    [[0, 360)]". *)
Definition ensure_angle_range (degrees : Q) : Q :=
  degrees - 360 * inject_Z (Qfloor (degrees / 360)).

Record SphericalPoint : Type := mkSphericalPoint {
  longitude : Q;
  latitude : Q
}.

(** [Line(p1, p2)] between two sky positions. *)
Record Line : Type := mkLine {
  p1 : SphericalPoint;
  p2 : SphericalPoint
}.

End Geometry.

Import Geometry.

(** ** The catalogue store

    [SkyMapDatabase] is an external collaborator.  A query string is modelled
    by the condition of its [WHERE] clause and its [ORDER BY] column; running
    it filters the table and sorts the selected rows. *)

Module Sql.

Section Conditions.

(** Numeric and text columns of a table. *)
Variables (N T : Type).

(** Conditions as the query strings spell them: [c<=v], [c>=v], [c='s'],
    and the connectives [AND] and [OR] (with the parentheses the strings
    write around every [OR]). *)
Inductive cond : Type :=
| Le (c : N) (v : Q)
| Ge (c : N) (v : Q)
| TextEq (c : T) (s : string)
| And (a b : cond)
| Or (a b : cond).

Variable row : Type.
Variable num : row -> N -> Q.
Variable txt : row -> T -> string.

Fixpoint holds (r : row) (c : cond) : bool :=
  match c with
  | Le col v => Py.le (num r col) v
  | Ge col v => Py.le v (num r col)
  | TextEq col s => String.eqb (txt r col) s
  | And a b => holds r a && holds r b
  | Or a b => holds r a || holds r b
  end.

(** [ORDER BY col ASC]: insertion into a list sorted on [col]. *)
Fixpoint insert_by (col : N) (r : row) (l : list row) : list row :=
  match l with
  | [] => [r]
  | x :: t =>
      if Py.le (num r col) (num x col) then r :: x :: t
      else x :: insert_by col r t
  end.

Fixpoint order_by (col : N) (l : list row) : list row :=
  match l with
  | [] => []
  | x :: t => insert_by col x (order_by col t)
  end.

(** Two rows in the order [ORDER BY col ASC] puts them. *)
Definition ascending (col : N) (a b : row) : Prop := (num a col <= num b col)%Q.

(** [SELECT * FROM table WHERE w [ORDER BY col ASC]] *)
Definition select (table : list row) (w : cond) (order : option N) : list row :=
  let rows := filter (fun r => holds r w) table in
  match order with
  | Some col => order_by col rows
  | None => rows
  end.

End Conditions.

Arguments Le {N T} c v.
Arguments Ge {N T} c v.
Arguments TextEq {N T} c s.
Arguments And {N T} a b.
Arguments Or {N T} a b.
Arguments holds {N T row} num txt r c.
Arguments insert_by {N row} num col r l.
Arguments order_by {N row} num col l.
Arguments ascending {N row} num col a b.
Arguments select {N T row} num txt table w order.

End Sql.

Module Database.

(** Columns of [skymap_stars] named by the queries of [select_stars]. *)
Inductive star_num : Type := magnitude | right_ascension | declination.
Inductive star_text : Type := constellation.

(** A record of [skymap_stars]. *)
Record StarRow : Type := mkStarRow {
  data_id : Z;
  data_constellation : string;
  data_right_ascension : Q;
  data_declination : Q;
  data_hp_magnitude : option Q;
  data_vt_magnitude : option Q;
  data_magnitude : Q
}.

Definition star_value (r : StarRow) (c : star_num) : Q :=
  match c with
  | magnitude => data_magnitude r
  | right_ascension => data_right_ascension r
  | declination => data_declination r
  end.

Definition star_string (r : StarRow) (c : star_text) : string :=
  match c with
  | constellation => data_constellation r
  end.

(** Columns of table [milkyway]; it has no text column. *)
Inductive milkyway_num : Type := ra1 | dec1 | ra2 | dec2.

Record MilkywayRow : Type := mkMilkywayRow {
  edge_id : Z;
  edge_ra1 : Q;
  edge_dec1 : Q;
  edge_ra2 : Q;
  edge_dec2 : Q
}.

Definition milkyway_value (r : MilkywayRow) (c : milkyway_num) : Q :=
  match c with
  | ra1 => edge_ra1 r
  | dec1 => edge_dec1 r
  | ra2 => edge_ra2 r
  | dec2 => edge_dec2 r
  end.

Definition milkyway_string (r : MilkywayRow) (c : Empty_set) : string :=
  match c with end.

(** The queries this code sends. *)
Inductive query : Type :=
| SelectStars (w : Sql.cond star_num star_text) (order : option star_num)
| SelectMilkyway (w : Sql.cond milkyway_num Empty_set).

(** The store and the queries it has received, most recent first. *)
Record world : Type := mkWorld {
  skymap_stars : list StarRow;
  milkyway : list MilkywayRow;
  issued : list query
}.

(** Computations that read the store and may raise. *)
Definition M (A : Type) : Type := world -> result A * world.

Definition ret {A : Type} (a : A) : M A := fun w => (Return a, w).

Definition raise {A : Type} (e : exn) : M A := fun w => (Raise e, w).

Definition mbind {A B : Type} (m : M A) (k : A -> M B) : M B :=
  fun w =>
    match m w with
    | (Return a, w') => k a w'
    | (Raise e, w') => (Raise e, w')
    end.

(** [db.query(q)] for the two kinds of query. *)
Definition query_stars (w : Sql.cond star_num star_text) (order : option star_num)
  : M (list StarRow) :=
  fun s =>
    (Return (Sql.select star_value star_string (skymap_stars s) w order),
     mkWorld (skymap_stars s) (milkyway s) (SelectStars w order :: issued s)).

Definition query_milkyway (w : Sql.cond milkyway_num Empty_set)
  : M (list MilkywayRow) :=
  fun s =>
    (Return (Sql.select milkyway_value milkyway_string (milkyway s) w None),
     mkWorld (skymap_stars s) (milkyway s) (SelectMilkyway w :: issued s)).

End Database.

Import Database.

Declare Scope db_scope.
Delimit Scope db_scope with db.
Notation "x <- m ;; k" := (mbind m (fun x => k))
  (at level 61, m at next level, right associativity) : db_scope.

(** ** math on the reals *)

Module PyMath.

Local Open Scope R_scope.

Definition radians (x : R) : R := x * PI / 180.

Definition degrees (x : R) : R := x * 180 / PI.

(** [math.atan2(y, x)]: the angle of the point [(x, y)], in [(-PI, PI]],
    with [atan2(0, 0) = 0]. *)
Definition atan2 (y x : R) : R :=
  if Rlt_dec 0 x then atan (y / x)
  else if Rlt_dec x 0 then
    if Rle_dec 0 y then atan (y / x) + PI else atan (y / x) - PI
  else if Rlt_dec 0 y then PI / 2
  else if Rlt_dec y 0 then - (PI / 2)
  else 0.

End PyMath.

(** ** skymap/stars.py *)

Module Stars.

Definition MAS_FOR_FULL_CIRCLE : R := (360 * 60 * 60 * 1000)%R.
Definition KM_PER_S_TO_PARSEC_PER_YEAR : R := (1 / 977780)%R.

Section Propagation.

Local Open Scope R_scope.

(** Epochs are [datetime] dates; [julian_year_difference] comes from
    [skymap/coordinates.py], which is not among the sources. *)
Variable epoch : Type.
Variable julian_year_difference : epoch -> epoch -> R.

(** [not x] for a proper motion that is a number or [None]. *)
Definition not_ (x : option R) : bool :=
  match x with
  | None => true
  | Some v => if Req_dec_T v 0 then true else false
  end.

Definition propagate_position (from_epoch to_epoch : epoch)
    (right_ascension declination : R)
    (proper_motion_ra proper_motion_dec : option R) : result (R * R) :=
  if not_ proper_motion_dec || not_ proper_motion_ra then
    Return (right_ascension, declination)
  else
    let dt := julian_year_difference to_epoch from_epoch in
    match proper_motion_ra, proper_motion_dec with
    | Some proper_motion_ra, Some proper_motion_dec =>
        let pm_ra := proper_motion_ra / 3600000 in
        let pm_dec := proper_motion_dec / 3600000 in
        if Req_dec_T (cos declination) 0 then Raise ZeroDivisionError
        else
          let ra := right_ascension + dt * pm_ra / cos declination in
          let dec := declination + dt * pm_dec in
          Return (ra, dec)
    | _, _ => Raise TypeError
    end.

Definition propagate_position2 (from_epoch to_epoch : epoch)
    (right_ascension declination proper_motion_ra proper_motion_dec : R)
    (distance radial_velocity : R) : R * R :=
  let dt := julian_year_difference to_epoch from_epoch in
  let right_ascension := PyMath.radians right_ascension in
  let declination := PyMath.radians declination in
  let velocity_ra :=
    proper_motion_ra * 2 * PI * distance
    / (MAS_FOR_FULL_CIRCLE * KM_PER_S_TO_PARSEC_PER_YEAR) in
  let velocity_dec :=
    proper_motion_dec * 2 * PI * distance
    / (MAS_FOR_FULL_CIRCLE * KM_PER_S_TO_PARSEC_PER_YEAR) in
  let x := distance * cos declination * cos right_ascension in
  let y := distance * cos declination * sin right_ascension in
  let z := distance * sin declination in
  let vx := radial_velocity * cos declination * cos right_ascension
            - velocity_ra * sin right_ascension
            - velocity_dec * sin declination * cos right_ascension in
  let vy := radial_velocity * cos declination * sin right_ascension
            + velocity_ra * cos right_ascension
            - velocity_dec * sin declination * sin right_ascension in
  let vz := radial_velocity * sin declination
            + velocity_dec * cos declination in
  let vx := vx * KM_PER_S_TO_PARSEC_PER_YEAR in
  let vy := vy * KM_PER_S_TO_PARSEC_PER_YEAR in
  let vz := vz * KM_PER_S_TO_PARSEC_PER_YEAR in
  let x := x + vx * dt in
  let y := y + vy * dt in
  let z := z + vz * dt in
  let dxy := sqrt (x ^ 2 + y ^ 2) in
  let right_ascension := PyMath.degrees (PyMath.atan2 y x) in
  let declination := PyMath.degrees (PyMath.atan2 z dxy) in
  let right_ascension :=
    if Rlt_dec right_ascension 0 then right_ascension + 360
    else right_ascension in
  (right_ascension, declination).

End Propagation.

(** A star wraps its database record. *)
Record Star : Type := mkStar { data : StarRow }.


Local Open Scope Q_scope.
Local Open Scope db_scope.

(** The test of the declination range that raises ["Illegal DEC range!"]. *)
Definition illegal_dec_range (min_dec max_dec : Q) : bool :=
  Py.lt min_dec (-90) || Py.lt 90 min_dec
  || Py.lt max_dec (-90) || Py.lt 90 max_dec
  || Py.le max_dec min_dec.

(** [select_stars(magnitude, constellation, ra_range, dec_range)].  The
    query string grows by [q += " AND ..."]; each piece extends the
    conjunction of the [WHERE] clause. *)
Definition select_stars (magnitude : Q) (constellation : option string)
    (ra_range dec_range : option (Q * Q)) : M (list Star) :=
  let q : Sql.cond star_num star_text := Sql.Le Database.magnitude magnitude in
  let q :=
    match constellation with
    | Some name =>
        if String.eqb name EmptyString then q
        else Sql.And q (Sql.TextEq Database.constellation name)
    | None => q
    end in
  let q :=
    match ra_range with
    | Some (min_ra, max_ra) =>
        let min_ra := ensure_angle_range min_ra in
        let max_ra := ensure_angle_range max_ra in
        if Py.lt min_ra max_ra then
          Sql.And (Sql.And q (Sql.Ge right_ascension min_ra))
                  (Sql.Le right_ascension max_ra)
        else if Py.lt max_ra min_ra then
          Sql.And q (Sql.Or (Sql.Ge right_ascension min_ra)
                            (Sql.Le right_ascension max_ra))
        else q
    | None => q
    end in
  q <- match dec_range with
       | Some (min_dec, max_dec) =>
           if illegal_dec_range min_dec max_dec then raise ValueError
           else ret (Sql.And (Sql.And q (Sql.Ge declination min_dec))
                             (Sql.Le declination max_dec))
       | None => ret q
       end ;;
  rows <- query_stars q (Some Database.magnitude) ;;
  ret (map mkStar rows).

End Stars.

(** ** skymap/milkyway.py *)

Module Milkyway.

(** *** The point pattern
    [^[A-Z]+\s(\d\d \d\d \d\d), (\-?\d\d \d\d)$] *)

Definition is_upper (c : ascii) : bool :=
  let n := nat_of_ascii c in (65 <=? n)%nat && (n <=? 90)%nat.

Definition is_digit (c : ascii) : bool :=
  let n := nat_of_ascii c in (48 <=? n)%nat && (n <=? 57)%nat.

(** [\s]: space, tab, newline, vertical tab, form feed, carriage return. *)
Definition is_space (c : ascii) : bool :=
  let n := nat_of_ascii c in (n =? 32)%nat || ((9 <=? n)%nat && (n <=? 13)%nat).

(** The rest of the string after the longest run of capitals. *)
Fixpoint skip_upper (s : string) : string :=
  match s with
  | String c rest => if is_upper c then skip_upper rest else s
  | EmptyString => s
  end.

(** [$]: the end of the string, or the newline that ends it. *)
Definition at_end (s : string) : bool :=
  match s with
  | EmptyString => true
  | String c EmptyString => (nat_of_ascii c =? 10)%nat
  | _ => false
  end.

Definition str2 (a b : ascii) : string := String a (String b EmptyString).

(** [\d\d \d\d] followed by [$]; returns the matched text. *)
Definition match_dd_dd (s : string) : option string :=
  match s with
  | String a (String b (String sp (String c (String d rest)))) =>
      if is_digit a && is_digit b && Ascii.eqb sp " " && is_digit c
         && is_digit d && at_end rest
      then Some (str2 a b ++ " " ++ str2 c d)%string
      else None
  | _ => None
  end.

(** [(\-?\d\d \d\d)$] *)
Definition match_latitude (s : string) : option string :=
  match s with
  | String c rest =>
      if Ascii.eqb c "-" then
        match match_dd_dd rest with
        | Some g => Some (String c g)
        | None => None
        end
      else match_dd_dd s
  | EmptyString => None
  end.

(** [\s(\d\d \d\d \d\d), ] and then the latitude group. *)
Definition match_coordinates (s : string) : option (string * string) :=
  match s with
  | String ws (String a (String b (String s1 (String c (String d (String s2
      (String e (String f (String comma (String s3 rest)))))))))) =>
      if is_space ws && is_digit a && is_digit b && Ascii.eqb s1 " "
         && is_digit c && is_digit d && Ascii.eqb s2 " "
         && is_digit e && is_digit f && Ascii.eqb comma ","
         && Ascii.eqb s3 " "
      then
        match match_latitude rest with
        | Some lat =>
            Some ((str2 a b ++ " " ++ str2 c d ++ " " ++ str2 e f)%string, lat)
        | None => None
        end
      else None
  | _ => None
  end.

(** [re.search(point_pattern, line)]: [None], or the two groups.  The
    pattern is anchored at the start; the capitals are followed by a
    character that is not a capital, so the greedy run is the only
    candidate. *)
Definition search_point_pattern (line : string) : option (string * string) :=
  match line with
  | String c rest =>
      if is_upper c then match_coordinates (skip_upper rest) else None
  | EmptyString => None
  end.

(** *** [str.split()] and [int(str)] *)

(** Splitting on runs of whitespace; [cur] is the word being read,
    reversed. *)
Fixpoint split_aux (s : string) (cur : list ascii) : list string :=
  let flush (k : list string) :=
    match cur with
    | [] => k
    | _ => string_of_list_ascii (rev cur) :: k
    end in
  match s with
  | EmptyString => flush []
  | String c rest =>
      if is_space c then flush (split_aux rest [])
      else split_aux rest (c :: cur)
  end.

Definition split (s : string) : list string := split_aux s [].

Definition digit_value (c : ascii) : Z := (Z.of_nat (nat_of_ascii c) - 48)%Z.

Fixpoint digits_value (s : string) (acc : Z) : result Z :=
  match s with
  | EmptyString => Return acc
  | String c rest =>
      if is_digit c then digits_value rest (10 * acc + digit_value c)%Z
      else Raise ValueError
  end.

(** [int(x)] for the text of a field: an optional sign and digits. *)
Definition int_of_string (s : string) : result Z :=
  match s with
  | EmptyString => Raise ValueError
  | String c rest =>
      if Ascii.eqb c "-" then
        match rest with
        | EmptyString => Raise ValueError
        | _ => Py.bind (digits_value rest 0) (fun v => Return (- v)%Z)
        end
      else digits_value s 0
  end.

Fixpoint ints (l : list string) : result (list Z) :=
  match l with
  | [] => Return []
  | x :: t =>
      Py.bind (int_of_string x) (fun v =>
      Py.bind (ints t) (fun vs => Return (v :: vs)))
  end.

(** [h, m, s = (int(x) for x in long.split())] *)
Definition unpack3 (text : string) : result (Z * Z * Z) :=
  Py.bind (ints (split text)) (fun l =>
    match l with
    | [h; m; s] => Return (h, m, s)
    | _ => Raise ValueError
    end).

(** [d, m = (int(x) for x in lat.split())] *)
Definition unpack2 (text : string) : result (Z * Z) :=
  Py.bind (ints (split text)) (fun l =>
    match l with
    | [d; m] => Return (d, m)
    | _ => Raise ValueError
    end).

Section ExtractPoint.

(** [HourAngle(h, m, s).to_degrees()] and
    [DMSAngle(degrees=d, minutes=m).to_degrees()] of
    [skymap/geometry.py], which is not among the sources. *)
Variable HourAngle_to_degrees : Z -> Z -> Z -> result Q.
Variable DMSAngle_to_degrees : Z -> Z -> result Q.

(** [extract_point(line)]: a point, [None], or a raised exception. *)
Definition extract_point (line : string) : result (option SphericalPoint) :=
  let m := search_point_pattern line in
  Py.except_AttributeError
    (Py.bind
       (match m with
        | Some groups => Return groups
        | None => Raise AttributeError
        end) (fun groups =>
     let long := fst groups in
     let lat := snd groups in
     Py.bind (unpack3 long) (fun '(h, m, s) =>
     Py.bind (HourAngle_to_degrees h m s) (fun longitude =>
     Py.bind (unpack2 lat) (fun '(d, m) =>
     Py.bind (DMSAngle_to_degrees d m) (fun latitude =>
     Return (Some (mkSphericalPoint longitude latitude))))))))
    (Return None).

End ExtractPoint.

Local Open Scope Q_scope.

(** Modelled from the spec: the hour-angle conversion of
    [skymap/geometry.py]; "[degrees = 15*(h + m/60 + s/3600)]", and
    "out-of-range minute/second fields fail with a ParseError". *)
Definition HourAngle_to_degrees (h m s : Z) : result Q :=
  if ((0 <=? m) && (m <? 60) && (0 <=? s) && (s <? 60))%Z then
    Return (15 * (inject_Z h + inject_Z m / 60 + inject_Z s / 3600))
  else Raise ParseError.

(** Modelled from the spec: the DMS conversion of [skymap/geometry.py];
    "[degrees = sign(d)*(|d| + m/60 + s/3600)]" with no seconds given, and
    the same failure on an out-of-range minute field. *)
Definition DMSAngle_to_degrees (d m : Z) : result Q :=
  if ((0 <=? m) && (m <? 60))%Z then
    Return (inject_Z (Z.sgn d) * (inject_Z (Z.abs d) + inject_Z m / 60))
  else Raise ParseError.

Local Open Scope db_scope.

(** The longitude test written for the first end point, then for the
    second: the closed interval when [min_longitude < max_longitude], the
    two half lines otherwise. *)
Definition longitude_condition (ra : milkyway_num) (min_longitude max_longitude : Q)
  : Sql.cond milkyway_num Empty_set :=
  if Py.lt min_longitude max_longitude then
    Sql.And (Sql.Ge ra min_longitude) (Sql.Le ra max_longitude)
  else
    Sql.Or (Sql.Ge ra min_longitude) (Sql.Le ra max_longitude).

Definition row_line (row : MilkywayRow) : Line :=
  mkLine (mkSphericalPoint (edge_ra1 row) (edge_dec1 row))
         (mkSphericalPoint (edge_ra2 row) (edge_dec2 row)).

(** [get_milky_way_boundary_for_area]: the condition reads
    [((ra1.. AND dec1>=.. AND dec1<=..) OR (ra2.. AND dec2>=.. AND dec2<=..))]. *)
Definition get_milky_way_boundary_for_area
    (min_longitude max_longitude min_latitude max_latitude : Q) : M (list Line) :=
  let min_longitude := ensure_angle_range min_longitude in
  let max_longitude := ensure_angle_range max_longitude in
  let max_longitude :=
    if Py.eq max_longitude min_longitude then max_longitude + 360
    else max_longitude in
  let q1 :=
    Sql.And (Sql.And (longitude_condition ra1 min_longitude max_longitude)
                     (Sql.Ge dec1 min_latitude))
            (Sql.Le dec1 max_latitude) in
  let q2 :=
    Sql.And (Sql.And (longitude_condition ra2 min_longitude max_longitude)
                     (Sql.Ge dec2 min_latitude))
            (Sql.Le dec2 max_latitude) in
  result <- query_milkyway (Sql.Or q1 q2) ;;
  ret (map row_line result).

End Milkyway.

(** ** skymap/mapmaker.py *)

Module Mapmaker.

Local Open Scope Z_scope.

(** [int(increment * math.floor(angle / float(increment)))]; the division
    raises for a zero increment. *)
Definition aligned_floor (angle : Q) (increment : Z) : result Z :=
  if increment =? 0 then Raise ZeroDivisionError
  else
    Return (Py.int (inject_Z increment
                    * inject_Z (Py.floor (angle / inject_Z increment)))%Q).

(** [draw_parallels]: the latitudes the loop draws, in order. *)
Definition draw_parallels (map_min_latitude map_max_latitude : Q) (increment : Z)
  : result (list Z) :=
  Py.bind (aligned_floor map_min_latitude increment) (fun min_latitude =>
  Py.range min_latitude (Py.int map_max_latitude + 1) increment).

(** The exclusive bound of the loop of [draw_meridians]. *)
Definition meridian_stop (min_longitude : Z) (map_max_longitude : Q) : Z :=
  let max_longitude := Py.int map_max_longitude in
  if max_longitude - 360 <? min_longitude then max_longitude + 1
  else max_longitude.

(** [draw_meridians]: the longitudes the loop draws, in order. *)
Definition draw_meridians (map_min_longitude map_max_longitude : Q) (increment : Z)
  : result (list Z) :=
  Py.bind (aligned_floor map_min_longitude increment) (fun min_longitude =>
  let max_longitude := meridian_stop min_longitude map_max_longitude in
  Py.range min_longitude max_longitude increment).

End Mapmaker.

(** ** skymap.geometry (page shapes) *)

Module Shapes.

Import PrimFloat.
Local Open Scope float_scope.

Record Point : Type := mkPoint { x : float; y : float }.

Record Circle : Type := mkCircle { center : Point; radius : float }.

(** A rectangle is given by its lower-left and upper-right corners. *)
Record Rectangle : Type := mkRectangle { lower_left : Point; upper_right : Point }.

Inductive shape : Type :=
| OfRectangle (r : Rectangle)
| OfCircle (c : Circle).

(** The extent of a shape along an axis: for a circle, centre minus and
    plus radius. *)
Definition extent_x (s : shape) : float * float :=
  match s with
  | OfRectangle r => (x (lower_left r), x (upper_right r))
  | OfCircle c => (x (center c) - radius c, x (center c) + radius c)
  end.

Definition extent_y (s : shape) : float * float :=
  match s with
  | OfRectangle r => (y (lower_left r), y (upper_right r))
  | OfCircle c => (y (center c) - radius c, y (center c) + radius c)
  end.

Definition fmin (a b : float) : float := if a <? b then a else b.
Definition fmax (a b : float) : float := if a <? b then b else a.

(** How the extent [[slo, shi]] of a shape meets the extent [[lo, hi]] of
    the rectangle along one axis. *)
Inductive meeting : Type :=
| Disjoint
| Contained
| Partial (depth : float).

Definition meet (lo hi slo shi : float) : meeting :=
  if (shi <? lo) || (hi <? slo) then Disjoint
  else if (lo <=? slo) && (shi <=? hi) then Contained
  else Partial (fmin hi shi - fmax lo slo).

(** Modelled from the spec: [Rectangle.overlap] of [skymap/geometry.py],
    which is not among the sources; "returns [0] when disjoint", and
    otherwise the penetration "along whichever axis produces a partial
    (neither fully-contained nor fully-disjoint) intersection": "the length
    of the overlapping interval" for a rectangle, "the penetration depth of
    the circle's bounding extent past that border" for a circle.  The
    horizontal axis is looked at first; a shape inside the rectangle on both
    axes crosses no border and gives [0]. *)
Definition overlap (r : Rectangle) (other : shape) : float :=
  let mx := meet (x (lower_left r)) (x (upper_right r))
                 (fst (extent_x other)) (snd (extent_x other)) in
  let my := meet (y (lower_left r)) (y (upper_right r))
                 (fst (extent_y other)) (snd (extent_y other)) in
  match mx, my with
  | Disjoint, _ => 0
  | _, Disjoint => 0
  | Partial d, _ => d
  | Contained, Partial d => d
  | Contained, Contained => 0
  end.

End Shapes.

(** ** The closing step of [propagate_position2] on binary64 floats *)

Module Binary64.

Import PrimFloat.
Local Open Scope float_scope.

(** [if right_ascension < 0: right_ascension += 360.0] *)
Definition wrap_right_ascension (right_ascension : float) : float :=
  if right_ascension <? 0 then right_ascension + 360 else right_ascension.

#[local] Set Warnings "-inexact-float".

(** [math.pi], [math.radians] and [math.degrees]. *)
Definition pi : float := 3.141592653589793.
Definition radians (x : float) : float := x * (pi / 180).
Definition degrees (x : float) : float := x * (180 / pi).

Definition MAS_FOR_FULL_CIRCLE : float := 360 * 60 * 60 * 1000.
Definition KM_PER_S_TO_PARSEC_PER_YEAR : float := 1 / 977780.

Section Libm.

(** [math.sin], [math.cos] and [math.atan2] of the C library. *)
Variables sin cos : float -> float.
Variable atan2 : float -> float -> float.

(** [propagate_position2] on binary64 floats; [dt] is the value of
    [julian_year_difference(to_epoch, from_epoch)], and [x**2] is taken as
    [x * x]. *)
Definition propagate_position2 (dt : float)
    (right_ascension declination proper_motion_ra proper_motion_dec : float)
    (distance radial_velocity : float) : float * float :=
  let right_ascension := radians right_ascension in
  let declination := radians declination in
  let velocity_ra :=
    proper_motion_ra * 2 * pi * distance
    / (MAS_FOR_FULL_CIRCLE * KM_PER_S_TO_PARSEC_PER_YEAR) in
  let velocity_dec :=
    proper_motion_dec * 2 * pi * distance
    / (MAS_FOR_FULL_CIRCLE * KM_PER_S_TO_PARSEC_PER_YEAR) in
  let x := distance * cos declination * cos right_ascension in
  let y := distance * cos declination * sin right_ascension in
  let z := distance * sin declination in
  let vx := radial_velocity * cos declination * cos right_ascension
            - velocity_ra * sin right_ascension
            - velocity_dec * sin declination * cos right_ascension in
  let vy := radial_velocity * cos declination * sin right_ascension
            + velocity_ra * cos right_ascension
            - velocity_dec * sin declination * sin right_ascension in
  let vz := radial_velocity * sin declination
            + velocity_dec * cos declination in
  let vx := vx * KM_PER_S_TO_PARSEC_PER_YEAR in
  let vy := vy * KM_PER_S_TO_PARSEC_PER_YEAR in
  let vz := vz * KM_PER_S_TO_PARSEC_PER_YEAR in
  let x := x + vx * dt in
  let y := y + vy * dt in
  let z := z + vz * dt in
  let dxy := sqrt (x * x + y * y) in
  let right_ascension := degrees (atan2 y x) in
  let declination := degrees (atan2 z dxy) in
  let right_ascension := wrap_right_ascension right_ascension in
  (right_ascension, declination).

End Libm.

(** A stand-in for the C library that is right at the arguments
    [sin 0], [cos 0], [atan2 0 1] and [atan2 y 1] for tiny [y]. *)
Definition sin_near_0 (x : float) : float := x.
Definition cos_near_0 (x : float) : float := 1.
Definition atan2_near_0 (y x : float) : float := y / x.

End Binary64.

(** ** Further code of skymap/stars.py *)

Module StarsMore.

(** *** Lists and slices *)

(** An index of a slice: counted from the end when negative, then cut to
    the list. *)
Definition slice_index (len i : Z) : Z :=
  let i := if (i <? 0)%Z then (i + len)%Z else i in
  Z.max 0 (Z.min len i).

(** [l[start:stop]] *)
Definition slice {A : Type} (l : list A) (start stop : Z) : list A :=
  let len := Z.of_nat (List.length l) in
  let a := slice_index len start in
  let b := slice_index len stop in
  firstn (Z.to_nat (b - a)) (skipn (Z.to_nat a) l).

(** [l[start:]] *)
Definition slice_from {A : Type} (l : list A) (start : Z) : list A :=
  let len := Z.of_nat (List.length l) in
  skipn (Z.to_nat (slice_index len start)) l.

(** [xrange(0, stop)] *)
Definition xrange0 (stop : Z) : list Z :=
  map Z.of_nat (seq 0 (Z.to_nat stop)).

(** [chunks(l, n)]: the chunks the generator yields, in order. *)
Definition chunks {A : Type} (l : list A) (n : Z) : result (list (list A)) :=
  if (n =? 0)%Z then Raise ZeroDivisionError
  else
    let newn :=
      Py.int (1 * inject_Z (Z.of_nat (List.length l)) / inject_Z n + (1 # 2))%Q in
    Return (map (fun i => slice l (i * newn) (i * newn + newn))%Z
                (xrange0 (n - 1))
            ++ [slice_from l (n * newn - newn)%Z]).

(** *** Magnitudes and separations, on the reals *)

Local Open Scope R_scope.

(** [math.log10(x)] and [pow(10, x)] *)
Definition log10 (x : R) : R := ln x / ln 10.
Definition pow10 (x : R) : R := Rpower 10 x.

Definition sum_magnitudes (m1 m2 : R) : R :=
  -2.5 * log10 (pow10 (- m1 / 2.5) + pow10 (- m2 / 2.5)).

Definition angular_separation_seconds_of_arc (ra1 de1 ra2 de2 : R) : R :=
  let dra := ra1 - ra2 in
  let dde := de1 - de2 in
  3600 * sqrt ((dra * cos (PyMath.radians de2)) ^ 2 + dde ^ 2).

End StarsMore.

(** ** Further code of skymap/milkyway.py *)

Module MilkywayFile.

Import Milkyway.

(** [l.strip()]: whitespace removed at both ends. *)
Fixpoint lstrip (s : string) : string :=
  match s with
  | String c rest => if is_space c then lstrip rest else s
  | EmptyString => s
  end.

Definition string_rev (s : string) : string :=
  string_of_list_ascii (rev (list_ascii_of_string s)).

Definition strip (s : string) : string :=
  string_rev (lstrip (string_rev (lstrip s))).

(** [l.startswith(prefix)] *)
Definition startswith (l prefix : string) : bool := String.prefix prefix l.

(** How [parse_file] can stop early: a local variable read before it was
    assigned, or an exception. *)
Inductive failure : Type :=
| UnboundLocalError
| Raised (e : exn).

(** The local variable [p1]: unbound, or bound to what [extract_point]
    returned. *)
Definition local : Type := option (option SphericalPoint).

Section ParseFile.

Variable HourAngle_to_degrees : Z -> Z -> Z -> result Q.
Variable DMSAngle_to_degrees : Z -> Z -> result Q.

(** The row of [INSERT INTO milkyway VALUES (edge_id, p1.longitude,
    p1.latitude, p2.longitude, p2.latitude)]; reading an attribute of
    [None] raises [AttributeError]. *)
Definition insert_row (edge_id : Z) (p1 : local) (p2 : option SphericalPoint)
  : failure + MilkywayRow :=
  match p1 with
  | None => inl UnboundLocalError
  | Some None => inl (Raised AttributeError)
  | Some (Some a) =>
      match p2 with
      | None => inl (Raised AttributeError)
      | Some b =>
          inr (mkMilkywayRow edge_id (longitude a) (latitude a)
                             (longitude b) (latitude b))
      end
  end.

(** The loop of [parse_file] over the lines read; [db] is the table
    [milkyway], to which each committed row is added. *)
Fixpoint parse_lines (lines : list string) (p1 : local)
    (db : list MilkywayRow) (edge_id : Z) : (failure + Z) * list MilkywayRow :=
  match lines with
  | [] => (inr edge_id, db)
  | l :: rest =>
      let l := strip l in
      if String.eqb l EmptyString || startswith l ";" then
        parse_lines rest p1 db edge_id
      else
        let moved :=
          if startswith l "MOVE" then
            match extract_point HourAngle_to_degrees DMSAngle_to_degrees l with
            | Return p => inr (Some p)
            | Raise e => inl (Raised e)
            end
          else inr p1 in
        match moved with
        | inl f => (inl f, db)
        | inr p1 =>
            if startswith l "DRAW" then
              match extract_point HourAngle_to_degrees DMSAngle_to_degrees l with
              | Raise e => (inl (Raised e), db)
              | Return p2 =>
                  match insert_row edge_id p1 p2 with
                  | inl f => (inl f, db)
                  | inr row =>
                      parse_lines rest (Some p2) (db ++ [row]) (edge_id + 1)%Z
                  end
              end
            else parse_lines rest p1 db edge_id
        end
  end.

(** [parse_file(file_path, db, edge_id)] on the lines of the file. *)
Definition parse_file (lines : list string) (db : list MilkywayRow) (edge_id : Z)
  : (failure + Z) * list MilkywayRow :=
  parse_lines lines None db edge_id.

End ParseFile.

(** A line that makes [parse_file] insert an edge. *)
Definition is_draw (line : string) : bool := startswith (strip line) "DRAW".

(** The identifiers [edge_id], [edge_id + 1], ... of [n] edges. *)
Definition ids_from (edge_id : Z) (n : nat) : list Z :=
  map (fun k => (edge_id + Z.of_nat k)%Z) (seq 0 n).

(** The second edge starts where the first one ends. *)
Definition joined (r r' : MilkywayRow) : Prop :=
  edge_ra2 r = edge_ra1 r' /\ edge_dec2 r = edge_dec1 r'.

(** No line of the list moves the pen. *)
Definition no_move (lines : list string) : bool :=
  forallb (fun l => negb (startswith (strip l) "MOVE")) lines.


End MilkywayFile.

(** ** Further code of skymap/mapmaker.py *)

Module MapmakerMore.

(** A constellation boundary edge as [draw_constellation_boundaries] reads
    it; identifiers are taken as integers. *)
Record Edge : Type := mkEdge {
  identifier : Z;
  complement : Z;
  interpolated_points : list SphericalPoint
}.

(** [x in drawn_edges] *)
Definition contains (drawn_edges : list Z) (x : Z) : bool :=
  existsb (Z.eqb x) drawn_edges.

(** The loop of [draw_constellation_boundaries]: the edges whose polygon is
    drawn, in order, and the final list [drawn_edges]. *)
Fixpoint draw_edges (edges : list Edge) (drawn_edges : list Z)
  : list Edge * list Z :=
  match edges with
  | [] => ([], drawn_edges)
  | e :: rest =>
      if contains drawn_edges (identifier e) then draw_edges rest drawn_edges
      else
        let drawn_edges := (drawn_edges ++ [identifier e]) ++ [complement e] in
        let (drawn, final) := draw_edges rest drawn_edges in
        (e :: drawn, final)
  end.

Definition draw_constellation_boundaries (edges : list Edge) : list Edge :=
  fst (draw_edges edges []).

(** The later of two drawn edges repeats neither the identifier nor the
    complement of the earlier one. *)
Definition not_redrawn (earlier later : Edge) : Prop :=
  identifier later <> identifier earlier
  /\ identifier later <> complement earlier.

Local Open Scope R_scope.

(** [magnitude_to_size(magnitude)] for a map of the given paper width. *)
Definition magnitude_to_size (paper_width magnitude : R) : R :=
  let magnitude := if Rlt_dec magnitude (-0.5) then -0.5 else magnitude in
  let scale := 6.1815 * paper_width / 465 in
  scale * exp (-0.27 * magnitude).

End MapmakerMore.

(** * Properties *)

(** ** Vocabulary of the statements *)

Module Spec.

Import Stars.
Local Open Scope Q_scope.

(** Membership in a range of longitudes whose ends lie in [[0, 360)]: the
    closed interval, or the interval that crosses the 0/360 seam. *)
Definition in_closed (lo hi x : Q) : Prop := lo <= x /\ x <= hi.
Definition in_wrapped (lo hi x : Q) : Prop := lo <= x \/ x <= hi.


Definition legal_dec (min_dec max_dec : Q) : Prop :=
  -90 <= min_dec /\ min_dec < max_dec /\ max_dec <= 90.

Definition legal_dec_range (dec_range : option (Q * Q)) : Prop :=
  match dec_range with
  | Some (min_dec, max_dec) => legal_dec min_dec max_dec
  | None => True
  end.

(** The columns of the record behind a star. *)
Definition magnitude_of (s : Star) : Q := data_magnitude (data s).
Definition right_ascension_of (s : Star) : Q := data_right_ascension (data s).
Definition declination_of (s : Star) : Q := data_declination (data s).

(** Brightest first. *)
Definition brighter_or_equal (s t : Star) : Prop :=
  magnitude_of s <= magnitude_of t.

(** What each argument of [select_stars] asks of a record. *)
Definition constellation_ok (constellation : option string) (r : StarRow) : Prop :=
  match constellation with
  | Some name => name = EmptyString \/ data_constellation r = name
  | None => True
  end.

Definition ra_ok (ra_range : option (Q * Q)) (r : StarRow) : Prop :=
  match ra_range with
  | Some (min_ra, max_ra) =>
      let a := ensure_angle_range min_ra in
      let b := ensure_angle_range max_ra in
      (a < b -> in_closed a b (data_right_ascension r))
      /\ (b < a -> in_wrapped a b (data_right_ascension r))
  | None => True
  end.

Definition dec_ok (dec_range : option (Q * Q)) (r : StarRow) : Prop :=
  match dec_range with
  | Some (min_dec, max_dec) => in_closed min_dec max_dec (data_declination r)
  | None => True
  end.

(** An end point of a Milky Way edge inside a band of latitudes. *)
Definition in_band (min_latitude max_latitude dec : Q) : Prop :=
  min_latitude <= dec /\ dec <= max_latitude.

End Spec.

Import Spec.

(** ** Sample stores *)

Module Examples.

Import Stars.

(** Three stars near the 0/360 seam and one far from it. *)
Definition seam_sky : world :=
  mkWorld
    [ mkStarRow 1 "Psc" 355 0 None None 2;
      mkStarRow 2 "Psc" 5 0 None None 1;
      mkStarRow 3 "Ori" 100 0 None None 0;
      mkStarRow 4 "Cas" 351 10 (Some 9%Q) None (7 # 2) ]
    [ mkMilkywayRow 0 50 0 60 0;
      mkMilkywayRow 1 355 0 3 0 ]
    [].

End Examples.

(** Linear arithmetic on the rationals and on the reals. *)
Ltac qlra := Lqa.lra.
Ltac rlra := Lra.lra.

(** ** Comparisons *)

Section Comparisons.

Local Open Scope Q_scope.

Lemma lt_true (a b : Q) : Py.lt a b = true <-> a < b.
Proof.
  unfold Py.lt. rewrite negb_true_iff.
  split; intro H.
  - apply Qnot_le_lt. intro L. apply Qle_bool_iff in L. congruence.
  - destruct (Qle_bool b a) eqn:E; [|reflexivity].
    apply Qle_bool_iff in E. exfalso. exact (Qlt_not_le _ _ H E).
Qed.

Lemma lt_false (a b : Q) : Py.lt a b = false <-> b <= a.
Proof.
  unfold Py.lt. rewrite negb_false_iff. apply Qle_bool_iff.
Qed.

Lemma le_true (a b : Q) : Py.le a b = true <-> a <= b.
Proof. apply Qle_bool_iff. Qed.

Lemma le_false (a b : Q) : Py.le a b = false <-> b < a.
Proof.
  unfold Py.le. split; intro H.
  - apply Qnot_le_lt. intro L. apply Qle_bool_iff in L. congruence.
  - destruct (Qle_bool a b) eqn:E; [|reflexivity].
    apply Qle_bool_iff in E. exfalso. exact (Qlt_not_le _ _ H E).
Qed.


End Comparisons.

(** ** Running a query *)

Section Queries.

Local Open Scope Q_scope.

Context {N T row : Type}.
Variable num : row -> N -> Q.
Variable txt : row -> T -> string.

Lemma insert_by_In (col : N) (r x : row) (l : list row) :
  In x (Sql.insert_by num col r l) <-> x = r \/ In x l.
Proof.
  induction l as [|y t IH]; simpl.
  - intuition.
  - destruct (Py.le (num r col) (num y col)); simpl.
    + intuition.
    + rewrite IH. intuition.
Qed.

Lemma order_by_In (col : N) (x : row) (l : list row) :
  In x (Sql.order_by num col l) <-> In x l.
Proof.
  induction l as [|y t IH]; simpl.
  - reflexivity.
  - rewrite insert_by_In, IH. intuition.
Qed.

Lemma insert_by_HdRel (col : N) (a r : row) (l : list row) :
  Sql.ascending num col a r -> HdRel (Sql.ascending num col) a l ->
  HdRel (Sql.ascending num col) a (Sql.insert_by num col r l).
Proof.
  intros Har Hal. destruct l as [|y t]; simpl.
  - constructor. exact Har.
  - destruct (Py.le (num r col) (num y col)).
    + constructor. exact Har.
    + constructor. inversion Hal; assumption.
Qed.

Lemma insert_by_Sorted (col : N) (r : row) (l : list row) :
  Sorted (Sql.ascending num col) l -> Sorted (Sql.ascending num col) (Sql.insert_by num col r l).
Proof.
  induction 1 as [|y t Hs IH Hd]; simpl.
  - repeat constructor.
  - destruct (Py.le (num r col) (num y col)) eqn:E.
    + constructor.
      * constructor; assumption.
      * constructor. apply le_true in E. exact E.
    + constructor.
      * exact IH.
      * apply insert_by_HdRel; [|exact Hd].
        apply le_false in E. apply Qlt_le_weak. exact E.
Qed.

Lemma order_by_Sorted (col : N) (l : list row) :
  Sorted (Sql.ascending num col) (Sql.order_by num col l).
Proof.
  induction l as [|y t IH]; simpl.
  - constructor.
  - apply insert_by_Sorted. exact IH.
Qed.

Lemma order_by_StronglySorted (col : N) (l : list row) :
  StronglySorted (Sql.ascending num col) (Sql.order_by num col l).
Proof.
  apply Sorted_StronglySorted.
  - intros a b c Hab Hbc. unfold Sql.ascending in *. eapply Qle_trans; eassumption.
  - apply order_by_Sorted.
Qed.

Lemma select_In (table : list row) (w : Sql.cond N T) (order : option N) (x : row) :
  In x (Sql.select num txt table w order)
  <-> In x table /\ Sql.holds num txt x w = true.
Proof.
  unfold Sql.select. destruct order as [col|].
  - rewrite order_by_In. apply filter_In.
  - apply filter_In.
Qed.

End Queries.

(** ** Sorting keeps the rows *)

Section Reordering.



End Reordering.

(** ** [select_stars] *)

Section SelectStars.

Import Stars.
Local Open Scope Q_scope.

Lemma In_map_mkStar (s : Star) (rows : list StarRow) :
  In s (map mkStar rows) <-> In (data s) rows.
Proof.
  rewrite in_map_iff. split.
  - intros [r [E H]]. subst s. exact H.
  - intro H. exists (data s). destruct s. split; [reflexivity | exact H].
Qed.


Lemma StronglySorted_map_mkStar (rows : list StarRow) :
  StronglySorted (Sql.ascending star_value magnitude) rows ->
  StronglySorted brighter_or_equal (map mkStar rows).
Proof.
  induction 1 as [|r t Hs IH Hall]; simpl; constructor.
  - exact IH.
  - rewrite Forall_map. exact Hall.
Qed.


Lemma illegal_dec_range_false (min_dec max_dec : Q) :
  illegal_dec_range min_dec max_dec = false <-> legal_dec min_dec max_dec.
Proof.
  unfold illegal_dec_range, legal_dec.
  rewrite !orb_false_iff, !lt_false, le_false.
  split; [intros [[[[A B] C] D] E] | intros [A [B C]]]; repeat split; qlra.
Qed.



Ltac holds_to_prop :=
  cbn [Sql.holds star_value star_string];
  repeat (rewrite andb_true_iff || rewrite orb_true_iff || rewrite le_true
          || rewrite String.eqb_eq).

Lemma select_stars_spec (magnitude : Q) (constellation : option string)
    (ra_range dec_range : option (Q * Q)) (w : world) :
  legal_dec_range dec_range ->
  exists stars w',
    select_stars magnitude constellation ra_range dec_range w = (Return stars, w')
    /\ skymap_stars w' = skymap_stars w
    /\ StronglySorted brighter_or_equal stars
    /\ forall s,
         In s stars <->
         In (data s) (skymap_stars w)
         /\ magnitude_of s <= magnitude
         /\ constellation_ok constellation (data s)
         /\ ra_ok ra_range (data s)
         /\ dec_ok dec_range (data s).
Proof.
  intro Hlegal.
  unfold select_stars, mbind, ret, raise, query_stars.
  assert (Hdec : match dec_range with
                 | Some (a, b) => illegal_dec_range a b = false
                 | None => True
                 end).
  { destruct dec_range as [[a b]|]; [|exact I].
    apply illegal_dec_range_false. exact Hlegal. }
  destruct dec_range as [[min_dec max_dec]|]; [rewrite Hdec|];
    (eexists; eexists; split; [reflexivity|]; split; [reflexivity|]; split;
     [apply StronglySorted_map_mkStar, order_by_StronglySorted|]);
    intro s; rewrite In_map_mkStar, select_In;
    unfold magnitude_of, constellation_ok, ra_ok, dec_ok, in_closed, in_wrapped;
    destruct constellation as [name|];
    try (destruct (String.eqb name EmptyString) eqn:En;
         [apply String.eqb_eq in En | apply String.eqb_neq in En]);
    destruct ra_range as [[min_ra max_ra]|];
    try (destruct (Py.lt (ensure_angle_range min_ra) (ensure_angle_range max_ra)) eqn:E1;
         [apply lt_true in E1
         | apply lt_false in E1;
           destruct (Py.lt (ensure_angle_range max_ra) (ensure_angle_range min_ra)) eqn:E2;
           [apply lt_true in E2 | apply lt_false in E2]]);
    holds_to_prop; intuition (try congruence; try qlra).
Qed.


End SelectStars.

(** ** [get_milky_way_boundary_for_area] *)

Section MilkywayQuery.

Import Milkyway.
Local Open Scope Q_scope.


End MilkywayQuery.

(** ** Longitude ranges (claims C1 and C2) *)

Section LongitudeRanges.

Import Stars Milkyway.
Local Open Scope Q_scope.


End LongitudeRanges.

Section LongitudeRangeInstances.

Import Stars Milkyway Examples.
Local Open Scope Q_scope.


(** X17. With equal ends [select_stars] puts no limit on right ascension. *)
Lemma select_stars_equal_ends_full_circle
    (magnitude : Q) (constellation : option string) (min_ra max_ra : Q)
    (dec_range : option (Q * Q)) (w : world) :
  ensure_angle_range min_ra == ensure_angle_range max_ra ->
  legal_dec_range dec_range ->
  exists stars all w1 w2,
    select_stars magnitude constellation (Some (min_ra, max_ra)) dec_range w
    = (Return stars, w1)
    /\ select_stars magnitude constellation None dec_range w = (Return all, w2)
    /\ forall s, In s stars <-> In s all.
Proof.
  intros Heq Hlegal.
  destruct (select_stars_spec magnitude constellation
              (Some (min_ra, max_ra)) dec_range w Hlegal)
    as (stars & w1 & E1 & _ & _ & H1).
  destruct (select_stars_spec magnitude constellation None dec_range w Hlegal)
    as (all & w2 & E2 & _ & _ & H2).
  exists stars, all, w1, w2.
  split; [exact E1|]. split; [exact E2|].
  intro s. rewrite H1, H2. unfold ra_ok. intuition qlra.
Qed.

(** C2, at the failing input.  With [min_longitude = max_longitude = 100]
    the Milky Way query keeps only longitudes from 100 up: the edge from
    longitude 50 to longitude 60 on the equator, inside the latitude band
    [[-10, 10]], is not returned. *)
Theorem milky_way_equal_ends_not_full_circle :
  In (mkMilkywayRow 0 50 0 60 0) (milkyway seam_sky)
  /\ in_band (-10) 10 0
  /\ exists lines w',
       get_milky_way_boundary_for_area 100 100 (-10) 10 seam_sky
       = (Return lines, w')
       /\ ~ In (row_line (mkMilkywayRow 0 50 0 60 0)) lines.
Proof.
  split; [left; reflexivity|].
  split; [unfold in_band, Qle; simpl; lia|].
  eexists; eexists. split; [vm_compute; reflexivity|].
  intros [H|[]]. discriminate H.
Qed.

End LongitudeRangeInstances.

(** ** Declination range and ordering (claims C5 and C8) *)

Section DeclinationAndOrder.

Import Stars Examples.
Local Open Scope Q_scope.







End DeclinationAndOrder.

(** ** Grid lines (claims C3 and C4) *)

Section GridLines.

Import Mapmaker.
Local Open Scope Z_scope.

Lemma int_inject_Z (z : Z) : Py.int (inject_Z z) = z.
Proof. unfold Py.int. simpl. apply Z.quot_1_r. Qed.

Lemma aligned_floor_value (angle : Q) (increment : Z) :
  increment <> 0 ->
  aligned_floor angle increment
  = Return (increment * Qfloor (angle / inject_Z increment)).
Proof.
  intro H. unfold aligned_floor.
  destruct (Z.eqb_spec increment 0) as [E|_]; [contradiction|].
  f_equal. unfold Py.int, Py.floor. simpl.
  rewrite Z.quot_1_r. reflexivity.
Qed.

(** The aligned value is not above the angle. *)
Lemma aligned_floor_le (angle : Q) (increment : Z) :
  0 < increment ->
  (inject_Z (increment * Qfloor (angle / inject_Z increment)) <= angle)%Q.
Proof.
  intro H.
  assert (Hi : (0 < inject_Z increment)%Q).
  { change (inject_Z 0 < inject_Z increment)%Q. rewrite <- Zlt_Qlt. exact H. }
  rewrite inject_Z_mult.
  setoid_replace angle
    with (inject_Z increment * (angle / inject_Z increment))%Q at 2.
  - apply Qmult_le_l; [exact Hi | apply Qfloor_le].
  - rewrite Qmult_div_r; [reflexivity|].
    intro E. rewrite E in Hi. discriminate Hi.
Qed.

(** [int(x) + 1] is above [x]. *)
Lemma int_succ_gt (x : Q) : (x < inject_Z (Py.int x + 1))%Q.
Proof.
  destruct x as [n d]. unfold Py.int, Qlt. simpl.
  rewrite Z.mul_1_r.
  pose proof (Z.quot_rem' n (Zpos d)) as E.
  assert (Hr : Z.rem n (Zpos d) < Zpos d).
  { destruct (Z_lt_le_dec n 0) as [Hn|Hn].
    - pose proof (Z.rem_bound_pos_neg n (Zpos d) ltac:(lia) ltac:(lia)). lia.
    - pose proof (Z.rem_bound_pos n (Zpos d) Hn ltac:(lia)). lia. }
  nia.
Qed.

Lemma range_positive_step (start stop step : Z) :
  0 < step ->
  Py.range start stop step
  = Return (map (fun k => start + Z.of_nat k * step)
                (seq 0 (Z.to_nat ((stop - start + step - 1) / step)))).
Proof.
  intro H. unfold Py.range.
  destruct (Z.eqb_spec step 0) as [E|_]; [lia|].
  destruct (Z.ltb_spec 0 step) as [_|E]; [reflexivity | lia].
Qed.

Lemma range_count (start stop step k : Z) :
  0 < step ->
  (k < (stop - start + step - 1) / step <-> start + k * step < stop).
Proof.
  intro H.
  pose proof (Z.div_mod (stop - start + step - 1) step ltac:(lia)) as E.
  pose proof (Z.mod_pos_bound (stop - start + step - 1) step H) as B.
  split; intro L; nia.
Qed.

Lemma range_In (start stop step : Z) (l : list Z) :
  0 < step ->
  Py.range start stop step = Return l ->
  forall v, In v l <->
            (exists k, 0 <= k /\ v = start + k * step) /\ v < stop.
Proof.
  intros H E v. rewrite range_positive_step in E by exact H.
  injection E as <-. rewrite in_map_iff. split.
  - intros (n & <- & Hn). apply in_seq in Hn. split.
    + exists (Z.of_nat n). lia.
    + apply range_count; [exact H|]. lia.
  - intros [(k & Hk & ->) Hv]. exists (Z.to_nat k).
    rewrite Z2Nat.id by exact Hk. split; [reflexivity|].
    apply in_seq. apply range_count in Hv; [|exact H]. lia.
Qed.

Lemma range_hd (start stop step : Z) :
  0 < step ->
  exists l,
    Py.range start stop step = Return l
    /\ (forall v, hd_error l = Some v -> v = start)
    /\ (start < stop -> hd_error l = Some start).
Proof.
  intro H. rewrite range_positive_step by exact H.
  eexists. split; [reflexivity|].
  destruct (Z.to_nat ((stop - start + step - 1) / step)) as [|n] eqn:En;
    simpl.
  - split; [discriminate|]. intro L.
    assert (0 < (stop - start + step - 1) / step).
    { apply range_count; lia. }
    lia.
  - rewrite Z.add_0_r. split; [|reflexivity]. congruence.
Qed.

End GridLines.

Section GridClaims.

Import Mapmaker.
Local Open Scope Z_scope.

Lemma aligned_below_stop (viewport_min viewport_max : Q) (increment : Z) :
  0 < increment ->
  (viewport_min <= viewport_max)%Q ->
  increment * Qfloor (viewport_min / inject_Z increment)
  < Py.int viewport_max + 1.
Proof.
  intros Hi Hle. rewrite Zlt_Qlt.
  eapply Qle_lt_trans; [apply aligned_floor_le; exact Hi|].
  eapply Qle_lt_trans; [exact Hle | apply int_succ_gt].
Qed.

(** C3. For a positive integer increment, whatever [draw_parallels] and
    [draw_meridians] draw first is the increment-aligned floor of the
    viewport minimum, [increment * floor(min / increment)]; and they do draw
    it whenever the viewport minimum is not above the viewport maximum. *)
Theorem grid_first_value :
  forall (viewport_min viewport_max : Q) (increment : Z),
    0 < increment ->
    let first := increment * Qfloor (viewport_min / inject_Z increment) in
    (exists latitudes,
        draw_parallels viewport_min viewport_max increment = Return latitudes
        /\ (forall v, hd_error latitudes = Some v -> v = first)
        /\ ((viewport_min <= viewport_max)%Q ->
            hd_error latitudes = Some first))
    /\
    (exists longitudes,
        draw_meridians viewport_min viewport_max increment = Return longitudes
        /\ (forall v, hd_error longitudes = Some v -> v = first)
        /\ ((viewport_min <= viewport_max)%Q ->
            hd_error longitudes = Some first)).
Proof.
  intros viewport_min viewport_max increment Hi first.
  pose proof (aligned_below_stop viewport_min viewport_max increment Hi) as Hb.
  fold first in Hb.
  split.
  - unfold draw_parallels.
    rewrite aligned_floor_value by lia. cbn [Py.bind]. fold first.
    destruct (range_hd first (Py.int viewport_max + 1) increment Hi)
      as (l & E & Hhd & Hne).
    exists l. split; [exact E|]. split; [exact Hhd|].
    intro Hle. apply Hne. apply Hb. exact Hle.
  - unfold draw_meridians.
    rewrite aligned_floor_value by lia. cbn [Py.bind]. fold first.
    destruct (range_hd first (meridian_stop first viewport_max) increment Hi)
      as (l & E & Hhd & Hne).
    exists l. split; [exact E|]. split; [exact Hhd|].
    intro Hle. apply Hne. specialize (Hb Hle). unfold meridian_stop.
    destruct (Z.ltb_spec (Py.int viewport_max - 360) first); lia.
Qed.

(** For [increment = 10] and [min_latitude = -37] the first parallel drawn
    is at [-40]. *)
Lemma grid_first_value_minus_37 :
  0 < 10
  /\ (-37 <= 53)%Q
  /\ exists latitudes,
       draw_parallels (-37) 53 10 = Return latitudes
       /\ hd_error latitudes = Some (-40).
Proof.
  assert (Hi : 0 < 10) by lia.
  assert (Hle : (-37 <= 53)%Q) by (unfold Qle; simpl; lia).
  split; [exact Hi|]. split; [exact Hle|].
  destruct (grid_first_value (-37) 53 10 Hi) as [(l & E & _ & Hd) _].
  exists l. split; [exact E | exact (Hd Hle)].
Defined.

(** C4, as amended.  Whenever [int(max_longitude) - 360] is below the
    aligned minimum, the exclusive bound of the loop of [draw_meridians] is
    [int(max_longitude) + 1]: the loop draws exactly the longitudes
    [min_longitude + k * increment] that are at most [int(max_longitude)]. *)
Theorem draw_meridians_inclusive_bound :
  forall (viewport_min viewport_max : Q) (increment : Z),
    0 < increment ->
    let min_longitude := increment * Qfloor (viewport_min / inject_Z increment) in
    Py.int viewport_max - 360 < min_longitude ->
    meridian_stop min_longitude viewport_max = Py.int viewport_max + 1
    /\ exists longitudes,
         draw_meridians viewport_min viewport_max increment = Return longitudes
         /\ forall v,
              In v longitudes <->
              (exists k, 0 <= k /\ v = min_longitude + k * increment)
              /\ v <= Py.int viewport_max.
Proof.
  intros viewport_min viewport_max increment Hi min_longitude Hlt.
  assert (Hstop : meridian_stop min_longitude viewport_max
                  = Py.int viewport_max + 1).
  { unfold meridian_stop.
    destruct (Z.ltb_spec (Py.int viewport_max - 360) min_longitude); lia. }
  split; [exact Hstop|].
  unfold draw_meridians.
  rewrite aligned_floor_value by lia. cbn [Py.bind]. fold min_longitude.
  rewrite Hstop.
  destruct (range_hd min_longitude (Py.int viewport_max + 1) increment Hi)
    as (l & E & _).
  exists l. split; [exact E|].
  intro v. rewrite (range_In _ _ _ _ Hi E v).
  split; intros [Hk Hv]; (split; [exact Hk | lia]).
Qed.

Lemma draw_meridians_inclusive_bound_0_31 :
  0 < 15
  /\ Py.int 31 - 360 < 0
  /\ meridian_stop 0 31 = 32
  /\ exists longitudes,
       draw_meridians 0 31 15 = Return longitudes
       /\ forall v,
            In v longitudes <->
            (exists k, 0 <= k /\ v = 0 + k * 15) /\ v <= 31.
Proof.
  assert (Hi : 0 < 15) by lia.
  assert (Hlt : Py.int 31 - 360 < 0) by (vm_compute; reflexivity).
  split; [exact Hi|]. split; [exact Hlt|].
  exact (draw_meridians_inclusive_bound 0 31 15 Hi Hlt).
Defined.

(** C4 as stated fails on the viewport [min_longitude = 350],
    [max_longitude = 10] with [increment = 15]: the test
    [max_longitude - 360 < min_longitude] holds, the bound becomes 11 and
    not [10 + 15], and no meridian is drawn at all. *)
Lemma draw_meridians_wrapped_viewport_draws_nothing :
  aligned_floor 350 15 = Return 345
  /\ Py.int 10 - 360 < 345
  /\ meridian_stop 345 10 = 11
  /\ meridian_stop 345 10 <> Py.int 10 + 15
  /\ draw_meridians 350 10 15 = Return [].
Proof.
  repeat split; try reflexivity. discriminate.
Qed.

End GridClaims.

(** ** [extract_point] (claim C6) *)

Section ExtractPointFacts.

Import Milkyway.

Lemma digit_not_space (c : ascii) : is_digit c = true -> is_space c = false.
Proof.
  destruct c as [[] [] [] [] [] [] [] []]; vm_compute; congruence.
Qed.

Lemma digit_not_minus (c : ascii) : is_digit c = true -> Ascii.eqb c "-" = false.
Proof.
  destruct c as [[] [] [] [] [] [] [] []]; vm_compute; congruence.
Qed.

Lemma split_three (a b c d e f : ascii) :
  is_digit a = true -> is_digit b = true -> is_digit c = true ->
  is_digit d = true -> is_digit e = true -> is_digit f = true ->
  split (str2 a b ++ " " ++ str2 c d ++ " " ++ str2 e f)
  = [str2 a b; str2 c d; str2 e f].
Proof.
  intros Ha Hb Hc Hd He Hf. unfold split. cbn [str2 append split_aux].
  rewrite (digit_not_space a Ha), (digit_not_space b Hb),
    (digit_not_space c Hc), (digit_not_space d Hd),
    (digit_not_space e He), (digit_not_space f Hf).
  reflexivity.
Qed.

Lemma split_two (sign : string) (a b c d : ascii) :
  sign = EmptyString \/ sign = "-"%string ->
  is_digit a = true -> is_digit b = true ->
  is_digit c = true -> is_digit d = true ->
  split (sign ++ str2 a b ++ " " ++ str2 c d)
  = [(sign ++ str2 a b)%string; str2 c d].
Proof.
  intros Hs Ha Hb Hc Hd. unfold split.
  destruct Hs as [-> | ->]; cbn [str2 append split_aux];
    rewrite ?(digit_not_space a Ha), ?(digit_not_space b Hb),
      ?(digit_not_space c Hc), ?(digit_not_space d Hd);
    reflexivity.
Qed.

Lemma int_of_two_digits (a b : ascii) :
  is_digit a = true -> is_digit b = true ->
  int_of_string (str2 a b)
  = Return (10 * (10 * 0 + digit_value a) + digit_value b)%Z.
Proof.
  intros Ha Hb. unfold int_of_string, str2.
  rewrite (digit_not_minus a Ha). cbn [digits_value].
  rewrite Ha, Hb. reflexivity.
Qed.

Lemma int_of_signed_two_digits (sign : string) (a b : ascii) :
  sign = EmptyString \/ sign = "-"%string ->
  is_digit a = true -> is_digit b = true ->
  exists v, int_of_string (sign ++ str2 a b) = Return v.
Proof.
  intros [-> | ->] Ha Hb.
  - eexists. apply int_of_two_digits; assumption.
  - eexists. unfold int_of_string, str2. cbn [append Ascii.eqb Bool.eqb].
    cbn [digits_value]. rewrite Ha, Hb. reflexivity.
Qed.

Lemma match_dd_dd_shape (s g : string) :
  match_dd_dd s = Some g ->
  exists a b c d,
    is_digit a = true /\ is_digit b = true
    /\ is_digit c = true /\ is_digit d = true
    /\ g = (str2 a b ++ " " ++ str2 c d)%string.
Proof.
  unfold match_dd_dd.
  destruct s as [|a [|b [|sp [|c [|d rest]]]]]; try discriminate.
  destruct (is_digit a) eqn:Ha; [|discriminate].
  destruct (is_digit b) eqn:Hb; [|discriminate].
  destruct (Ascii.eqb sp " "); [|discriminate].
  destruct (is_digit c) eqn:Hc; [|discriminate].
  destruct (is_digit d) eqn:Hd; [|discriminate].
  destruct (at_end rest); [|discriminate].
  cbn [andb]. intro E. injection E as <-.
  exists a, b, c, d. repeat split; assumption.
Qed.

Lemma match_latitude_shape (s lat : string) :
  match_latitude s = Some lat ->
  exists sign a b c d,
    (sign = EmptyString \/ sign = "-"%string)
    /\ is_digit a = true /\ is_digit b = true
    /\ is_digit c = true /\ is_digit d = true
    /\ lat = (sign ++ str2 a b ++ " " ++ str2 c d)%string.
Proof.
  unfold match_latitude. destruct s as [|c0 rest]; [discriminate|].
  destruct (Ascii.eqb c0 "-") eqn:E0.
  - apply Ascii.eqb_eq in E0. subst c0.
    destruct (match_dd_dd rest) as [g|] eqn:Eg; [|discriminate].
    intro E. injection E as <-.
    destruct (match_dd_dd_shape _ _ Eg) as (a & b & c & d & Ha & Hb & Hc & Hd & ->).
    exists "-"%string, a, b, c, d. repeat split; auto.
  - intro Eg.
    destruct (match_dd_dd_shape _ _ Eg) as (a & b & c & d & Ha & Hb & Hc & Hd & ->).
    exists EmptyString, a, b, c, d. repeat split; auto.
Qed.

Lemma match_coordinates_shape (s long lat : string) :
  match_coordinates s = Some (long, lat) ->
  (exists a b c d e f,
      is_digit a = true /\ is_digit b = true /\ is_digit c = true
      /\ is_digit d = true /\ is_digit e = true /\ is_digit f = true
      /\ long = (str2 a b ++ " " ++ str2 c d ++ " " ++ str2 e f)%string)
  /\ exists rest, match_latitude rest = Some lat.
Proof.
  unfold match_coordinates.
  destruct s as [|ws [|a [|b [|s1 [|c [|d [|s2 [|e [|f [|comma [|s3 rest]]]]]]]]]]];
    try discriminate.
  destruct (is_space ws); [|discriminate].
  destruct (is_digit a) eqn:Ha; [|discriminate].
  destruct (is_digit b) eqn:Hb; [|discriminate].
  destruct (Ascii.eqb s1 " "); [|discriminate].
  destruct (is_digit c) eqn:Hc; [|discriminate].
  destruct (is_digit d) eqn:Hd; [|discriminate].
  destruct (Ascii.eqb s2 " "); [|discriminate].
  destruct (is_digit e) eqn:He; [|discriminate].
  destruct (is_digit f) eqn:Hf; [|discriminate].
  destruct (Ascii.eqb comma ","); [|discriminate].
  destruct (Ascii.eqb s3 " "); [|discriminate].
  cbn [andb].
  destruct (match_latitude rest) as [g|] eqn:Eg; [|discriminate].
  intro E. injection E as <- <-. split.
  - exists a, b, c, d, e, f. repeat split; assumption.
  - exists rest. exact Eg.
Qed.

(** The groups of a matching line always unpack into integers. *)
Lemma matched_groups_unpack (line long lat : string) :
  search_point_pattern line = Some (long, lat) ->
  (exists h m s, unpack3 long = Return (h, m, s))
  /\ (exists d m, unpack2 lat = Return (d, m)).
Proof.
  unfold search_point_pattern.
  destruct line as [|c0 rest]; [discriminate|].
  destruct (is_upper c0); [|discriminate].
  intro E. apply match_coordinates_shape in E.
  destruct E as [(a & b & c & d & e & f & Ha & Hb & Hc & Hd & He & Hf & ->)
                   (rest' & El)].
  apply match_latitude_shape in El.
  destruct El as (sign & a' & b' & c' & d' & Hs & Ha' & Hb' & Hc' & Hd' & ->).
  split.
  - unfold unpack3. rewrite split_three by assumption.
    cbn [ints]. rewrite !int_of_two_digits by assumption.
    cbn [Py.bind]. eauto.
  - unfold unpack2. rewrite split_two by assumption.
    destruct (int_of_signed_two_digits sign a' b' Hs Ha' Hb') as (v & Ev).
    cbn [ints]. rewrite Ev, int_of_two_digits by assumption.
    cbn [Py.bind]. eauto.
Qed.

End ExtractPointFacts.

Section ExtractPointClaims.

Import Milkyway.

(** C6, as amended.  A line that does not match the point pattern makes
    [extract_point] return [None] without raising.  On a line that matches,
    the fields always unpack into integers, and an exception other than
    [AttributeError] raised by the hour-angle or by the DMS conversion (a
    parse error for an out-of-range minute or second) leaves
    [extract_point] as it was raised. *)
Theorem extract_point_failures :
  forall (hour_angle : Z -> Z -> Z -> result Q) (dms_angle : Z -> Z -> result Q)
         (line : string),
    (search_point_pattern line = None ->
     extract_point hour_angle dms_angle line = Return None)
    /\
    (forall long lat,
        search_point_pattern line = Some (long, lat) ->
        exists h m s d m',
          unpack3 long = Return (h, m, s)
          /\ unpack2 lat = Return (d, m')
          /\ (forall e, e <> AttributeError ->
                        hour_angle h m s = Raise e ->
                        extract_point hour_angle dms_angle line = Raise e)
          /\ (forall e longitude, e <> AttributeError ->
                        hour_angle h m s = Return longitude ->
                        dms_angle d m' = Raise e ->
                        extract_point hour_angle dms_angle line = Raise e)).
Proof.
  intros hour_angle dms_angle line. split.
  - intro E. unfold extract_point. rewrite E. reflexivity.
  - intros long lat E.
    destruct (matched_groups_unpack line long lat E)
      as [(h & m & s & E3) (d & m' & E2)].
    exists h, m, s, d, m'.
    split; [exact E3|]. split; [exact E2|].
    unfold extract_point. rewrite E. cbn [Py.bind fst snd]. rewrite E3.
    cbn [Py.bind]. split.
    + intros e Hne Hh. rewrite Hh. cbn [Py.bind].
      destruct e; try reflexivity. contradiction.
    + intros e longitude Hne Hh Hd. rewrite Hh. cbn [Py.bind].
      rewrite E2. cbn [Py.bind]. rewrite Hd. cbn [Py.bind].
      destruct e; try reflexivity. contradiction.
Qed.

(** A line with too few digits gives [None]; a line with 75 minutes matches
    the pattern and fails with the parse error of the conversion. *)
Lemma extract_point_failures_instances :
  (search_point_pattern "MOVE 1 2 3, 4 5" = None
   /\ extract_point HourAngle_to_degrees DMSAngle_to_degrees "MOVE 1 2 3, 4 5"
      = Return None)
  /\ (search_point_pattern "MOVE 12 75 56, -12 34"
      = Some ("12 75 56"%string, "-12 34"%string)
      /\ ParseError <> AttributeError
      /\ HourAngle_to_degrees 12 75 56 = Raise ParseError
      /\ extract_point HourAngle_to_degrees DMSAngle_to_degrees
           "MOVE 12 75 56, -12 34" = Raise ParseError).
Proof.
  split.
  - assert (N : search_point_pattern "MOVE 1 2 3, 4 5" = None) by reflexivity.
    split; [exact N|].
    exact (proj1 (extract_point_failures HourAngle_to_degrees
                    DMSAngle_to_degrees "MOVE 1 2 3, 4 5") N).
  - assert (S : search_point_pattern "MOVE 12 75 56, -12 34"
                = Some ("12 75 56"%string, "-12 34"%string)) by reflexivity.
    assert (D : ParseError <> AttributeError) by discriminate.
    assert (P : HourAngle_to_degrees 12 75 56 = Raise ParseError) by reflexivity.
    split; [exact S|]. split; [exact D|]. split; [exact P|].
    destruct (proj2 (extract_point_failures HourAngle_to_degrees
                       DMSAngle_to_degrees "MOVE 12 75 56, -12 34") _ _ S)
      as (h & m & s & d & m' & E3 & _ & Hraise & _).
    apply (Hraise ParseError D).
    vm_compute in E3. injection E3 as <- <- <-. exact P.
Defined.

(** C6 as stated fails on a line whose fields do not match the pattern:
    [extract_point] returns [None] and raises nothing. *)
Lemma extract_point_mismatch_returns_None :
  search_point_pattern "MOVE 1 2 3, 4 5" = None
  /\ extract_point HourAngle_to_degrees DMSAngle_to_degrees "MOVE 1 2 3, 4 5"
     = Return None.
Proof.
  split; reflexivity.
Qed.

End ExtractPointClaims.

(** ** Position propagation (claims C9 and C10) *)

Section PositionPropagation.

Import Stars.
Local Open Scope R_scope.

Lemma degrees_le (a b : R) : a <= b -> PyMath.degrees a <= PyMath.degrees b.
Proof.
  intro H. unfold PyMath.degrees. pose proof PI_RGT_0 as Hpi.
  apply Rmult_le_compat_r.
  - left. apply Rinv_0_lt_compat. exact Hpi.
  - rlra.
Qed.

Lemma degrees_lt (a b : R) : a < b -> PyMath.degrees a < PyMath.degrees b.
Proof.
  intro H. unfold PyMath.degrees. pose proof PI_RGT_0 as Hpi.
  apply Rmult_lt_compat_r.
  - apply Rinv_0_lt_compat. exact Hpi.
  - rlra.
Qed.

Lemma degrees_PI : PyMath.degrees PI = 180.
Proof. unfold PyMath.degrees. pose proof PI_RGT_0. field. rlra. Qed.

Lemma degrees_opp (a : R) : PyMath.degrees (- a) = - PyMath.degrees a.
Proof. unfold PyMath.degrees. pose proof PI_RGT_0. field. rlra. Qed.

Lemma degrees_half_PI : PyMath.degrees (PI / 2) = 90.
Proof. unfold PyMath.degrees. pose proof PI_RGT_0. field. rlra. Qed.

Lemma atan_nonpos (t : R) : t <= 0 -> atan t <= 0.
Proof.
  intros [H | ->].
  - left. rewrite <- atan_0. apply atan_increasing. exact H.
  - rewrite atan_0. right. reflexivity.
Qed.

Lemma atan_pos (t : R) : 0 < t -> 0 < atan t.
Proof.
  intro H. rewrite <- atan_0. apply atan_increasing. exact H.
Qed.

Lemma quotient_neg_nonneg (y x : R) : x < 0 -> 0 <= y -> y / x <= 0.
Proof.
  intros Hx Hy. unfold Rdiv.
  pose proof (Rinv_lt_0_compat x Hx) as Hi.
  replace 0 with (y * 0) by ring.
  apply Rmult_le_compat_l; [exact Hy | left; exact Hi].
Qed.

Lemma quotient_neg_neg (y x : R) : x < 0 -> y < 0 -> 0 < y / x.
Proof.
  intros Hx Hy. unfold Rdiv.
  pose proof (Rinv_lt_0_compat x Hx) as Hi.
  replace (y * / x) with ((- y) * (- / x)) by ring.
  apply Rmult_lt_0_compat; rlra.
Qed.

(** [atan2] lies in [(-PI, PI]]. *)
Lemma atan2_bounds (y x : R) : - PI < PyMath.atan2 y x <= PI.
Proof.
  unfold PyMath.atan2. pose proof PI_RGT_0 as Hpi.
  destruct (Rlt_dec 0 x) as [Hx|Hx].
  - pose proof (atan_bound (y / x)). rlra.
  - destruct (Rlt_dec x 0) as [Hn|Hn].
    + pose proof (atan_bound (y / x)) as B.
      destruct (Rle_dec 0 y) as [Hy|Hy].
      * pose proof (atan_nonpos _ (quotient_neg_nonneg y x Hn Hy)). rlra.
      * assert (Hy' : y < 0) by rlra.
        pose proof (atan_pos _ (quotient_neg_neg y x Hn Hy')). rlra.
    + destruct (Rlt_dec 0 y); [rlra|].
      destruct (Rlt_dec y 0); rlra.
Qed.

(** To the right of the vertical axis, and on it, [atan2] lies in
    [[-PI/2, PI/2]]. *)
Lemma atan2_bounds_right (y x : R) :
  0 <= x -> - (PI / 2) <= PyMath.atan2 y x <= PI / 2.
Proof.
  intro H0. unfold PyMath.atan2. pose proof PI_RGT_0 as Hpi.
  destruct (Rlt_dec 0 x) as [Hx|Hx].
  - pose proof (atan_bound (y / x)). rlra.
  - destruct (Rlt_dec x 0) as [Hn|Hn]; [rlra|].
    destruct (Rlt_dec 0 y); [rlra|].
    destruct (Rlt_dec y 0); rlra.
Qed.

(** The last lines of [propagate_position2]. *)
Lemma spherical_position_normalized (y x z w : R) :
  let right_ascension := PyMath.degrees (PyMath.atan2 y x) in
  let declination := PyMath.degrees (PyMath.atan2 z (sqrt w)) in
  (0 <= (if Rlt_dec right_ascension 0 then right_ascension + 360
         else right_ascension) < 360)
  /\ -90 <= declination <= 90.
Proof.
  intros right_ascension declination.
  pose proof (atan2_bounds y x) as [Hlo Hhi].
  apply degrees_lt in Hlo. apply degrees_le in Hhi.
  rewrite degrees_opp, degrees_PI in Hlo. rewrite degrees_PI in Hhi.
  fold right_ascension in Hlo, Hhi.
  pose proof (atan2_bounds_right z (sqrt w) (sqrt_pos w)) as [Dlo Dhi].
  apply degrees_le in Dlo. apply degrees_le in Dhi.
  rewrite degrees_opp, degrees_half_PI in Dlo. rewrite degrees_half_PI in Dhi.
  fold declination in Dlo, Dhi.
  split; [|rlra].
  destruct (Rlt_dec right_ascension 0); rlra.
Qed.

(** C9. [propagate_position] returns the position it was given whenever
    either proper-motion component is zero or [None], whatever the other
    component is. *)
Theorem propagate_position_identity :
  forall (epoch : Type) (julian_year_difference : epoch -> epoch -> R)
         (from_epoch to_epoch : epoch) (right_ascension declination : R)
         (proper_motion_ra proper_motion_dec : option R),
    proper_motion_ra = None \/ proper_motion_ra = Some 0
    \/ proper_motion_dec = None \/ proper_motion_dec = Some 0 ->
    propagate_position epoch julian_year_difference from_epoch to_epoch
      right_ascension declination proper_motion_ra proper_motion_dec
    = Return (right_ascension, declination).
Proof.
  intros epoch jyd from_epoch to_epoch ra dec pm_ra pm_dec H.
  unfold propagate_position.
  assert (Hz : not_ (Some 0) = true).
  { unfold not_. destruct (Req_dec_T 0 0) as [_|N]; [reflexivity|].
    exfalso. apply N. reflexivity. }
  assert (Hn : not_ pm_dec || not_ pm_ra = true).
  { apply orb_true_iff.
    destruct H as [-> | [-> | [-> | ->]]]; auto. }
  rewrite Hn. reflexivity.
Qed.

Lemma propagate_position_identity_instance :
  (Some 0 = None \/ Some 0 = Some 0
   \/ Some 5 = None \/ Some 5 = Some 0)
  /\ propagate_position unit (fun _ _ => 25) tt tt 10 20 (Some 0) (Some 5)
     = Return (10, 20).
Proof.
  assert (H : Some 0 = None \/ Some 0 = Some 0
              \/ Some 5 = None \/ Some 5 = Some 0).
  { right. left. reflexivity. }
  split; [exact H|].
  exact (propagate_position_identity unit (fun _ _ => 25) tt tt 10 20
           (Some 0) (Some 5) H).
Defined.

(** On the real numbers the position [propagate_position2] returns is
    normalized: its right ascension lies in [[0, 360)] and its declination
    in [[-90, 90]]. *)
Theorem propagate_position2_normalized :
  forall (epoch : Type) (julian_year_difference : epoch -> epoch -> R)
         (from_epoch to_epoch : epoch)
         (right_ascension declination proper_motion_ra proper_motion_dec : R)
         (distance radial_velocity : R),
    let position :=
      propagate_position2 epoch julian_year_difference from_epoch to_epoch
        right_ascension declination proper_motion_ra proper_motion_dec
        distance radial_velocity in
    (0 <= fst position < 360) /\ (-90 <= snd position <= 90).
Proof.
  intros. unfold position, propagate_position2. cbv zeta. cbn [fst snd].
  apply spherical_position_normalized.
Qed.

End PositionPropagation.

Section PositionRounding.

Import PrimFloat Binary64.
Local Open Scope float_scope.
#[local] Set Warnings "-inexact-float".

(** On binary64 floats the sum of a tiny negative angle and [360.0] rounds to
    [360.0]; the bound [right_ascension < 360] is a fact of the real number
    model. *)
Remark wrap_right_ascension_rounds_to_360 :
  wrap_right_ascension (-1e-20) = 360.
Proof. vm_compute. reflexivity. Qed.

(** C10, at the failing input.  On binary64 floats, for a star at right
    ascension 0 and declination 0 with proper motion [-1e-8] mas/year in
    right ascension, at distance 1 and over one Julian year,
    [propagate_position2] returns the right ascension [360.0], which is not
    below 360.  Of the C library only [sin 0 = 0], [cos 0 = 1],
    [atan2 0 1 = 0] and [atan2 y 1 = y] at the tiny [y] reached are used. *)
Theorem propagate_position2_binary64_returns_360 :
  forall (sin cos : float -> float) (atan2 : float -> float -> float),
    sin 0 = 0 ->
    cos 0 = 1 ->
    atan2 0 1 = 0 ->
    atan2 (-4.8481368110953593e-17) 1 = -4.8481368110953593e-17 ->
    Binary64.propagate_position2 sin cos atan2 1 0 0 (-1e-8) 0 1 0
    = (360, 0).
Proof.
  intros sin cos atan2 Hsin Hcos Hzero Htiny.
  unfold Binary64.propagate_position2.
  replace (radians 0) with 0 by (vm_compute; reflexivity).
  rewrite Hsin, Hcos.
  match goal with
  | |- (_, degrees (atan2 ?z ?d)) = _ =>
      replace d with 1 by (vm_compute; reflexivity);
      replace z with 0 by (vm_compute; reflexivity)
  end.
  match goal with
  | |- (wrap_right_ascension (degrees (atan2 ?y ?x)), _) = _ =>
      replace x with 1 by (vm_compute; reflexivity);
      replace y with (-4.8481368110953593e-17) by (vm_compute; reflexivity)
  end.
  rewrite Htiny, Hzero. vm_compute. reflexivity.
Qed.

Lemma propagate_position2_binary64_returns_360_instance :
  sin_near_0 0 = 0
  /\ cos_near_0 0 = 1
  /\ atan2_near_0 0 1 = 0
  /\ atan2_near_0 (-4.8481368110953593e-17) 1 = -4.8481368110953593e-17
  /\ Binary64.propagate_position2 sin_near_0 cos_near_0 atan2_near_0
       1 0 0 (-1e-8) 0 1 0
     = (360, 0).
Proof.
  assert (H1 : sin_near_0 0 = 0) by reflexivity.
  assert (H2 : cos_near_0 0 = 1) by reflexivity.
  assert (H3 : atan2_near_0 0 1 = 0) by (vm_compute; reflexivity).
  assert (H4 : atan2_near_0 (-4.8481368110953593e-17) 1
               = -4.8481368110953593e-17) by (vm_compute; reflexivity).
  split; [exact H1|]. split; [exact H2|]. split; [exact H3|]. split; [exact H4|].
  exact (propagate_position2_binary64_returns_360
           sin_near_0 cos_near_0 atan2_near_0 H1 H2 H3 H4).
Defined.

End PositionRounding.

(** ** Rectangle overlap (claim C7) *)

Section OverlapValues.

Import PrimFloat Shapes.
Local Open Scope float_scope.
#[local] Set Warnings "-inexact-float".

(** C7. [Rectangle.overlap] gives the values of the test
    [RectangleTest.test_overlap]. *)
Theorem overlap_literal_values :
  let r1 := mkRectangle (mkPoint 0 0) (mkPoint 1 1) in
  let r2 := mkRectangle (mkPoint 0.5 0) (mkPoint 1.5 1) in
  let r3 := mkRectangle (mkPoint (-44.1658022222) 1.05834038889)
                        (mkPoint 44.1658022222 4.97850936111) in
  overlap r1 (OfRectangle r2) = 0.5
  /\ overlap r1 (OfCircle (mkCircle (mkPoint 1 0.5) 0.5)) = 0.5
  /\ overlap r1 (OfCircle (mkCircle (mkPoint 4 0) 0.5)) = 0
  /\ overlap r3 (OfCircle (mkCircle (mkPoint 1 1) 0.5)) = 0.44165961110999996
  /\ overlap r3 (OfCircle (mkCircle (mkPoint (-1) 0) 0.5)) = 0
  /\ overlap r3 (OfCircle (mkCircle (mkPoint 1 0) 0.5)) = 0.
Proof.
  repeat split; vm_compute; reflexivity.
Qed.

End OverlapValues.

(** ** [chunks] *)

Section Chunks.

Import StarsMore.
Local Open Scope Z_scope.

Lemma firstn_then_firstn {A : Type} (a b : nat) (l : list A) :
  (firstn a l ++ firstn b (skipn a l))%list = firstn (a + b) l.
Proof.
  revert l. induction a as [|a IH]; intro l; simpl.
  - reflexivity.
  - destruct l as [|x t]; simpl.
    + rewrite firstn_nil. reflexivity.
    + rewrite IH. reflexivity.
Qed.

Lemma slice_index_nonneg (len i : Z) :
  0 <= len -> 0 <= i -> slice_index len i = Z.min len i.
Proof.
  intros Hl Hi. unfold slice_index.
  destruct (Z.ltb_spec i 0); lia.
Qed.

Lemma xrange0_succ (k : nat) :
  xrange0 (Z.of_nat (S k)) = (xrange0 (Z.of_nat k) ++ [Z.of_nat k])%list.
Proof.
  unfold xrange0. rewrite !Nat2Z.id. rewrite seq_S, map_app. reflexivity.
Qed.

(** The first [k] chunks of size [newn] make up the front of the list. *)
Lemma chunk_prefix {A : Type} (l : list A) (newn : Z) (k : nat) :
  0 <= newn ->
  List.concat (map (fun i => slice l (i * newn) (i * newn + newn))
              (xrange0 (Z.of_nat k)))
  = firstn (Z.to_nat (Z.min (Z.of_nat (List.length l)) (Z.of_nat k * newn))) l.
Proof.
  intro Hn. induction k as [|k IH].
  - replace (Z.to_nat (Z.min (Z.of_nat (List.length l)) (Z.of_nat 0 * newn)))
      with 0%nat by lia.
    reflexivity.
  - rewrite xrange0_succ, map_app, concat_app, IH. cbn [map List.concat].
    rewrite app_nil_r. unfold slice.
    set (len := Z.of_nat (List.length l)).
    assert (Hlen : 0 <= len) by (unfold len; lia).
    rewrite !slice_index_nonneg by nia.
    rewrite firstn_then_firstn. f_equal. nia.
Qed.

Lemma int_nonneg (x : Q) : (0 <= x)%Q -> 0 <= Py.int x.
Proof.
  destruct x as [n d]. unfold Qle, Py.int. simpl. intro H.
  apply Z.quot_pos; lia.
Qed.

Lemma chunk_size_nonneg (len n : Z) :
  0 <= len -> 1 <= n ->
  0 <= Py.int (1 * inject_Z len / inject_Z n + (1 # 2))%Q.
Proof.
  intros Hl Hn. apply int_nonneg.
  assert (H1 : (0 <= inject_Z len)%Q).
  { change (inject_Z 0 <= inject_Z len)%Q. rewrite <- Zle_Qle. exact Hl. }
  assert (H2 : (0 < inject_Z n)%Q).
  { change (inject_Z 0 < inject_Z n)%Q. rewrite <- Zlt_Qlt. lia. }
  assert (H3 : (0 <= 1 * inject_Z len / inject_Z n)%Q).
  { apply Qle_shift_div_l; [exact H2|]. qlra. }
  qlra.
Qed.

(** X1. [chunks(l, n)] for [n >= 1] yields exactly [n] chunks, and the chunks
    joined in order give back [l]. *)
Theorem chunks_partition :
  forall (A : Type) (l : list A) (n : Z),
    1 <= n ->
    exists cs,
      chunks l n = Return cs
      /\ Z.of_nat (List.length cs) = n
      /\ List.concat cs = l.
Proof.
  intros A l n Hn. unfold chunks.
  destruct (Z.eqb_spec n 0) as [E|_]; [lia|].
  set (newn := Py.int (1 * inject_Z (Z.of_nat (List.length l)) / inject_Z n
                       + (1 # 2))%Q).
  assert (Hnew : 0 <= newn).
  { apply chunk_size_nonneg; lia. }
  eexists. split; [reflexivity|]. split.
  - rewrite length_app, length_map. unfold xrange0.
    rewrite length_map, length_seq. simpl. lia.
  - rewrite concat_app. cbn [List.concat]. rewrite app_nil_r.
    replace (n - 1) with (Z.of_nat (Z.to_nat (n - 1))) at 1 by lia.
    rewrite chunk_prefix by exact Hnew.
    unfold slice_from.
    rewrite slice_index_nonneg by nia.
    replace (Z.of_nat (Z.to_nat (n - 1)) * newn) with (n * newn - newn) by nia.
    apply firstn_skipn.
Qed.

Lemma chunks_partition_instance :
  1 <= 3
  /\ exists cs,
       chunks [1; 2; 3; 4; 5] 3 = Return cs
       /\ Z.of_nat (List.length cs) = 3
       /\ List.concat cs = [1; 2; 3; 4; 5].
Proof.
  assert (H : 1 <= 3) by lia.
  split; [exact H|].
  exact (chunks_partition Z [1; 2; 3; 4; 5] 3 H).
Defined.

End Chunks.

Section ChunksEven.

Import StarsMore.
Local Open Scope Z_scope.

Lemma int_floor_nonneg (x : Q) : (0 <= x)%Q -> Py.int x = Qfloor x.
Proof.
  destruct x as [n d]. unfold Qle, Py.int, Qfloor. simpl. intro H.
  apply Z.quot_div_nonneg; lia.
Qed.

(** When [n] divides the length, the chunk size is the quotient. *)
Lemma chunk_size_even (n q : Z) :
  1 <= n -> 0 <= q ->
  Py.int (1 * inject_Z (n * q) / inject_Z n + (1 # 2))%Q = q.
Proof.
  intros Hn Hq.
  assert (Hnz : ~ (inject_Z n == 0)%Q).
  { intro E. change 0%Q with (inject_Z 0) in E.
    apply (proj1 (inject_Z_injective n 0)) in E. lia. }
  assert (E : (1 * inject_Z (n * q) / inject_Z n + (1 # 2)
               == inject_Z q + (1 # 2))%Q).
  { rewrite inject_Z_mult. field. exact Hnz. }
  assert (Hq' : (0 <= inject_Z q)%Q).
  { change (inject_Z 0 <= inject_Z q)%Q. rewrite <- Zle_Qle. exact Hq. }
  rewrite int_floor_nonneg by (rewrite E; qlra).
  rewrite (Qfloor_comp _ _ E).
  unfold Qfloor, inject_Z, Qplus. simpl.
  rewrite Z.div_add_l by lia. change (1 / 2) with 0. lia.
Qed.

(** X2. When [n >= 1] divides the length of [l], every chunk of
    [chunks(l, n)] has the same length, the quotient. *)
Theorem chunks_even_split :
  forall (A : Type) (l : list A) (n q : Z),
    1 <= n ->
    Z.of_nat (List.length l) = n * q ->
    exists cs,
      chunks l n = Return cs
      /\ Forall (fun c => Z.of_nat (List.length c) = q) cs.
Proof.
  intros A l n q Hn Hlen.
  assert (Hq : 0 <= q) by nia.
  unfold chunks.
  destruct (Z.eqb_spec n 0) as [E|_]; [lia|].
  rewrite Hlen, chunk_size_even by assumption.
  eexists. split; [reflexivity|].
  apply Forall_app. split.
  - apply Forall_map. apply Forall_forall. intros i Hi.
    unfold xrange0 in Hi. apply in_map_iff in Hi.
    destruct Hi as (k & <- & Hk). apply in_seq in Hk.
    unfold slice. rewrite Hlen.
    rewrite !slice_index_nonneg by nia.
    rewrite length_firstn, length_skipn. nia.
  - constructor; [|constructor].
    unfold slice_from. rewrite Hlen.
    rewrite slice_index_nonneg by nia.
    rewrite length_skipn. nia.
Qed.

Lemma chunks_even_split_instance :
  1 <= 3
  /\ Z.of_nat (List.length [1; 2; 3; 4; 5; 6]) = 3 * 2
  /\ exists cs,
       chunks [1; 2; 3; 4; 5; 6] 3 = Return cs
       /\ Forall (fun c => Z.of_nat (List.length c) = 2) cs.
Proof.
  assert (H : 1 <= 3) by lia.
  assert (L : Z.of_nat (List.length [1; 2; 3; 4; 5; 6]) = 3 * 2) by reflexivity.
  split; [exact H|]. split; [exact L|].
  exact (chunks_even_split Z [1; 2; 3; 4; 5; 6] 3 2 H L).
Defined.

End ChunksEven.

(** ** [draw_constellation_boundaries] *)

Section ConstellationBoundaries.

Import MapmakerMore.
Local Open Scope Z_scope.

Lemma contains_In (drawn_edges : list Z) (x : Z) :
  contains drawn_edges x = true <-> In x drawn_edges.
Proof.
  unfold contains. rewrite existsb_exists. split.
  - intros (y & Hy & E). apply Z.eqb_eq in E. subst y. exact Hy.
  - intro H. exists x. split; [exact H | apply Z.eqb_refl].
Qed.

Lemma contains_not_In (drawn_edges : list Z) (x : Z) :
  contains drawn_edges x = false <-> ~ In x drawn_edges.
Proof.
  rewrite <- contains_In. destruct (contains drawn_edges x); intuition congruence.
Qed.

(** A drawn edge was not in the list of drawn identifiers the loop started
    from. *)
Lemma draw_edges_fresh (edges : list Edge) :
  forall (drawn_edges : list Z) (e : Edge),
    In e (fst (draw_edges edges drawn_edges)) ->
    ~ In (identifier e) drawn_edges.
Proof.
  induction edges as [|e0 rest IH]; intros D e; simpl.
  - intros [].
  - destruct (contains D (identifier e0)) eqn:C.
    + apply IH.
    + destruct (draw_edges rest ((D ++ [identifier e0]) ++ [complement e0]))
        as [drawn final] eqn:E.
      simpl. intros [<- | H].
      * apply contains_not_In. exact C.
      * specialize (IH ((D ++ [identifier e0]) ++ [complement e0]) e).
        rewrite E in IH. simpl in IH. specialize (IH H).
        intro HD. apply IH. apply in_or_app. left. apply in_or_app. left.
        exact HD.
Qed.

Lemma draw_edges_pairs (edges : list Edge) :
  forall drawn_edges : list Z,
    ForallOrdPairs not_redrawn (fst (draw_edges edges drawn_edges)).
Proof.
  induction edges as [|e0 rest IH]; intro D; simpl.
  - constructor.
  - destruct (contains D (identifier e0)) eqn:C.
    + apply IH.
    + pose proof (draw_edges_fresh rest
                    ((D ++ [identifier e0]) ++ [complement e0])) as F.
      specialize (IH ((D ++ [identifier e0]) ++ [complement e0])).
      destruct (draw_edges rest ((D ++ [identifier e0]) ++ [complement e0]))
        as [drawn final].
      simpl in *. constructor; [|exact IH].
      apply Forall_forall. intros e He. specialize (F e He).
      split; intro Eq; apply F; rewrite Eq.
      * apply in_or_app. left. apply in_or_app. right. left. reflexivity.
      * apply in_or_app. right. left. reflexivity.
Qed.

(** X3. [draw_constellation_boundaries] draws no identifier twice, and never
    draws an edge whose identifier is the complement of an edge drawn
    before it. *)
Theorem boundaries_drawn_once :
  forall edges : list Edge,
    NoDup (map identifier (draw_constellation_boundaries edges))
    /\ ForallOrdPairs not_redrawn (draw_constellation_boundaries edges).
Proof.
  intro edges. unfold draw_constellation_boundaries.
  pose proof (draw_edges_pairs edges []) as P.
  split; [|exact P].
  induction P as [|e l Hall _ IH]; simpl; constructor.
  - rewrite in_map_iff. intros (e' & Eq & He').
    rewrite Forall_forall in Hall. destruct (Hall e' He') as [N _].
    apply N. exact Eq.
  - exact IH.
Qed.

Lemma draw_edges_covers (edges : list Edge) :
  forall (drawn_edges : list Z) (e : Edge),
    In e edges ->
    In (identifier e) drawn_edges
    \/ exists d,
         In d (fst (draw_edges edges drawn_edges))
         /\ (identifier e = identifier d \/ identifier e = complement d).
Proof.
  induction edges as [|e0 rest IH]; intros D e; simpl.
  - intros [].
  - destruct (contains D (identifier e0)) eqn:C.
    + intros [<- | H].
      * left. apply contains_In. exact C.
      * apply IH. exact H.
    + specialize (IH ((D ++ [identifier e0]) ++ [complement e0]) e).
      destruct (draw_edges rest ((D ++ [identifier e0]) ++ [complement e0]))
        as [drawn final].
      simpl in *. intros [<- | H].
      * right. exists e0. split; [left; reflexivity | left; reflexivity].
      * destruct (IH H) as [HD | (d & Hd & Hid)].
        -- apply in_app_or in HD. destruct HD as [HD | [Eq | []]].
           ++ apply in_app_or in HD. destruct HD as [HD | [Eq | []]].
              ** left. exact HD.
              ** right. exists e0. split; [left; reflexivity|].
                 left. symmetry. exact Eq.
           ++ right. exists e0. split; [left; reflexivity|].
              right. symmetry. exact Eq.
        -- right. exists d. split; [right; exact Hd | exact Hid].
Qed.

Lemma draw_edges_incl (edges : list Edge) :
  forall (drawn_edges : list Z) (e : Edge),
    In e (fst (draw_edges edges drawn_edges)) -> In e edges.
Proof.
  induction edges as [|e0 rest IH]; intros D e; simpl.
  - intros [].
  - destruct (contains D (identifier e0)).
    + intro H. right. exact (IH D e H).
    + specialize (IH ((D ++ [identifier e0]) ++ [complement e0]) e).
      destruct (draw_edges rest ((D ++ [identifier e0]) ++ [complement e0]))
        as [drawn final].
      simpl in *. intros [<- | H]; [left; reflexivity | right; exact (IH H)].
Qed.

(** X4. Every edge handed to [draw_constellation_boundaries] is accounted for:
    a drawn edge carries its identifier, as identifier or as complement;
    and only edges that were handed in are drawn. *)
Theorem boundaries_all_covered :
  forall edges : list Edge,
    (forall e, In e edges ->
               exists d,
                 In d (draw_constellation_boundaries edges)
                 /\ (identifier e = identifier d
                     \/ identifier e = complement d))
    /\ (forall d, In d (draw_constellation_boundaries edges) -> In d edges).
Proof.
  intro edges. unfold draw_constellation_boundaries. split.
  - intros e He.
    destruct (draw_edges_covers edges [] e He) as [[] | H]. exact H.
  - intros d Hd. exact (draw_edges_incl edges [] d Hd).
Qed.

End ConstellationBoundaries.

(** ** [parse_file] *)

Section ParseFileFacts.

Import Milkyway MilkywayFile.
Local Open Scope Z_scope.

Variable hour_angle : Z -> Z -> Z -> result Q.
Variable dms_angle : Z -> Z -> result Q.

Lemma skipped_line_is_not_draw (l : string) :
  String.eqb l EmptyString || startswith l ";" = true ->
  startswith l "DRAW" = false.
Proof.
  destruct l as [|c rest]; [reflexivity|].
  unfold startswith. cbn [String.eqb orb String.prefix].
  destruct (ascii_dec ";" c) as [<-|N]; [reflexivity | discriminate].
Qed.

Lemma insert_row_id (edge_id : Z) (p1 : local) (p2 : option SphericalPoint)
    (row : MilkywayRow) :
  insert_row edge_id p1 p2 = inr row -> Database.edge_id row = edge_id.
Proof.
  unfold insert_row.
  destruct p1 as [[a|]|]; try discriminate.
  destruct p2 as [b|]; try discriminate.
  intro E. injection E as <-. reflexivity.
Qed.

Lemma ids_from_succ (edge_id : Z) (n : nat) :
  ids_from edge_id (S n) = edge_id :: ids_from (edge_id + 1) n.
Proof.
  unfold ids_from. cbn [seq map]. f_equal; [lia|].
  rewrite <- seq_shift, map_map. apply map_ext. intro k. lia.
Qed.

Ltac stopped :=
  exists []; rewrite app_nil_r;
  split; [reflexivity|]; split; [reflexivity|];
  let H := fresh in intros ? H; discriminate H.

(** What the loop adds to the table, whatever its outcome. *)
Lemma parse_lines_rows (lines : list string) :
  forall (p1 : local) (db : list MilkywayRow) (edge_id : Z),
  exists rows,
    snd (parse_lines hour_angle dms_angle lines p1 db edge_id) = (db ++ rows)%list
    /\ map Database.edge_id rows = ids_from edge_id (List.length rows)
    /\ forall last,
         fst (parse_lines hour_angle dms_angle lines p1 db edge_id) = inr last ->
         last = edge_id + Z.of_nat (List.length rows)
         /\ List.length rows = List.length (filter is_draw lines).
Proof.
  induction lines as [|l rest IH]; intros p1 db edge_id.
  - exists []. simpl. rewrite app_nil_r.
    split; [reflexivity|]. split; [reflexivity|].
    intros last E. injection E as <-. split; [lia | reflexivity].
  - cbn [parse_lines filter]. unfold is_draw at 1.
    destruct (String.eqb (strip l) EmptyString || startswith (strip l) ";")
      eqn:Skip.
    + rewrite (skipped_line_is_not_draw _ Skip). apply IH.
    + destruct (startswith (strip l) "MOVE").
      * destruct (extract_point hour_angle dms_angle (strip l)) as [p|e];
          cbv beta iota; [|stopped].
        destruct (startswith (strip l) "DRAW"); [|apply IH].
        destruct (insert_row edge_id (Some p) p) as [f|row] eqn:Ins;
          cbv beta iota; [stopped|].
        destruct (IH (Some p) (db ++ [row])%list (edge_id + 1))
          as (rows & Hdb & Hids & Hlast).
        exists (row :: rows). rewrite Hdb, <- app_assoc.
        split; [reflexivity|]. split.
        -- cbn [map List.length]. rewrite ids_from_succ, Hids.
           rewrite (insert_row_id _ _ _ _ Ins). reflexivity.
        -- intros last E. destruct (Hlast last E) as [E1 E2].
           cbn [List.length]. split; lia.
      * cbv beta iota.
        destruct (startswith (strip l) "DRAW"); [|apply IH].
        destruct (extract_point hour_angle dms_angle (strip l)) as [p2|e];
          cbv beta iota; [|stopped].
        destruct (insert_row edge_id p1 p2) as [f|row] eqn:Ins;
          cbv beta iota; [stopped|].
        destruct (IH (Some p2) (db ++ [row])%list (edge_id + 1))
          as (rows & Hdb & Hids & Hlast).
        exists (row :: rows). rewrite Hdb, <- app_assoc.
        split; [reflexivity|]. split.
        -- cbn [map List.length]. rewrite ids_from_succ, Hids.
           rewrite (insert_row_id _ _ _ _ Ins). reflexivity.
        -- intros last E. destruct (Hlast last E) as [E1 E2].
           cbn [List.length]. split; lia.
Qed.

End ParseFileFacts.

Section ParseFileProperties.

Import Milkyway MilkywayFile.
Local Open Scope Z_scope.

Variable hour_angle : Z -> Z -> Z -> result Q.
Variable dms_angle : Z -> Z -> result Q.

Lemma move_line_facts (l : string) :
  startswith l "MOVE" = true ->
  String.eqb l EmptyString || startswith l ";" = false
  /\ startswith l "DRAW" = false.
Proof.
  destruct l as [|c rest]; [discriminate|].
  unfold startswith. cbn [String.eqb orb String.prefix].
  destruct (ascii_dec "M" c) as [<-|N]; [|discriminate].
  intros _. split; reflexivity.
Qed.

Lemma draw_line_facts (l : string) :
  startswith l "DRAW" = true ->
  String.eqb l EmptyString || startswith l ";" = false
  /\ startswith l "MOVE" = false.
Proof.
  destruct l as [|c rest]; [discriminate|].
  unfold startswith. cbn [String.eqb orb String.prefix].
  destruct (ascii_dec "D" c) as [<-|N]; [|discriminate].
  intros _. split; reflexivity.
Qed.

(** X5. [parse_file] numbers the edges it inserts consecutively from
    [edge_id], appends them to the table in that order, and, when it
    reaches the end of the file, returns [edge_id] plus the number of
    [DRAW] lines, each of which gave one edge. *)
Theorem parse_file_edge_ids :
  forall (lines : list string) (db : list MilkywayRow) (edge_id : Z),
  exists rows,
    snd (parse_file hour_angle dms_angle lines db edge_id) = (db ++ rows)%list
    /\ map Database.edge_id rows = ids_from edge_id (List.length rows)
    /\ forall last,
         fst (parse_file hour_angle dms_angle lines db edge_id) = inr last ->
         last = edge_id + Z.of_nat (List.length rows)
         /\ List.length rows = List.length (filter is_draw lines).
Proof.
  intros lines db edge_id. unfold parse_file.
  apply parse_lines_rows.
Qed.

(** Between two [MOVE] lines the inserted edges form a chain that starts at
    the point the loop holds. *)
Lemma parse_lines_chain (lines : list string) :
  forall (p1 : local) (db : list MilkywayRow) (edge_id : Z),
    no_move lines = true ->
    exists rows,
      snd (parse_lines hour_angle dms_angle lines p1 db edge_id)
      = (db ++ rows)%list
      /\ Sorted joined rows
      /\ forall r, hd_error rows = Some r ->
                   exists a, p1 = Some (Some a)
                             /\ edge_ra1 r = longitude a
                             /\ edge_dec1 r = latitude a.
Proof.
  induction lines as [|l rest IH]; intros p1 db edge_id Hno.
  - exists []. simpl. rewrite app_nil_r.
    split; [reflexivity|]. split; [constructor|]. discriminate.
  - cbn [no_move forallb] in Hno. apply andb_true_iff in Hno.
    destruct Hno as [Hl Hrest]. apply negb_true_iff in Hl.
    fold (no_move rest) in Hrest.
    cbn [parse_lines]. rewrite Hl.
    destruct (String.eqb (strip l) EmptyString || startswith (strip l) ";").
    + apply IH. exact Hrest.
    + cbv beta iota.
      destruct (startswith (strip l) "DRAW"); [|apply IH; exact Hrest].
      destruct (extract_point hour_angle dms_angle (strip l)) as [p2|e];
        cbv beta iota.
      2:{ exists []. rewrite app_nil_r. split; [reflexivity|].
          split; [constructor | discriminate]. }
      unfold insert_row.
      destruct p1 as [[a|]|]; cbv beta iota;
        try (exists []; rewrite app_nil_r; split; [reflexivity|];
             split; [constructor | discriminate]).
      destruct p2 as [b|]; cbv beta iota;
        try (exists []; rewrite app_nil_r; split; [reflexivity|];
             split; [constructor | discriminate]).
      destruct (IH (Some (Some b))
                  (db ++ [mkMilkywayRow edge_id (longitude a) (latitude a)
                            (longitude b) (latitude b)])%list
                  (edge_id + 1) Hrest)
        as (rows & Hdb & Hsorted & Hhd).
      exists (mkMilkywayRow edge_id (longitude a) (latitude a)
                (longitude b) (latitude b) :: rows).
      rewrite Hdb, <- app_assoc. split; [reflexivity|]. split.
      * constructor; [exact Hsorted|].
        destruct rows as [|r rows']; constructor.
        destruct (Hhd r eq_refl) as (b' & Eb & Hra & Hdec).
        injection Eb as <-. split; simpl; congruence.
      * intros r Hr. injection Hr as <-. exists a.
        split; [reflexivity|]. split; reflexivity.
Qed.

(** X6. In a file with no [MOVE] after its first line, each inserted edge
    starts at the end point of the edge inserted before it. *)
Theorem parse_file_polyline :
  forall (first : string) (rest : list string) (db : list MilkywayRow)
         (edge_id : Z),
    no_move rest = true ->
    exists rows,
      snd (parse_file hour_angle dms_angle (first :: rest) db edge_id)
      = (db ++ rows)%list
      /\ Sorted joined rows.
Proof.
  intros first rest db edge_id Hno. unfold parse_file.
  destruct (startswith (strip first) "MOVE") eqn:M.
  - destruct (move_line_facts _ M) as [Skip Draw].
    cbn [parse_lines]. rewrite Skip, M, Draw.
    destruct (extract_point hour_angle dms_angle (strip first)) as [p|e];
      cbv beta iota.
    + destruct (parse_lines_chain rest (Some p) db edge_id Hno)
        as (rows & Hdb & Hsorted & _).
      exists rows. split; assumption.
    + exists []. rewrite app_nil_r. split; [reflexivity | constructor].
  - assert (Hall : no_move (first :: rest) = true).
    { cbn [no_move forallb]. rewrite M. exact Hno. }
    destruct (parse_lines_chain (first :: rest) None db edge_id Hall)
      as (rows & Hdb & Hsorted & _).
    exists rows. split; assumption.
Qed.



(** Once the loop holds a point, a [DRAW] line that does not match the
    pattern stops it with [AttributeError], the table as the lines before
    it left it. *)
Lemma parse_lines_then_malformed_draw (d : string) (rest : list string) :
  startswith (strip d) "DRAW" = true ->
  search_point_pattern (strip d) = None ->
  forall (pre : list string) (p1 : local) (db : list MilkywayRow)
         (edge_id last : Z) (db' : list MilkywayRow),
    parse_lines hour_angle dms_angle pre p1 db edge_id = (inr last, db') ->
    p1 <> None \/ no_move pre = false ->
    parse_lines hour_angle dms_angle (pre ++ d :: rest) p1 db edge_id
    = (inl (Raised AttributeError), db').
Proof.
  intros D Sd.
  destruct (draw_line_facts _ D) as [SkipD MoveD].
  assert (Ed : extract_point hour_angle dms_angle (strip d) = Return None).
  { unfold extract_point. rewrite Sd. reflexivity. }
  induction pre as [|l pre IH]; intros p1 db edge_id last db' E Hb.
  - cbn [parse_lines] in E. injection E as _ <-.
    cbn [app parse_lines]. rewrite SkipD, MoveD, D, Ed.
    destruct Hb as [Hb | Hb]; [|discriminate Hb].
    destruct p1 as [[a|]|]; [reflexivity | reflexivity | contradiction].
  - cbn [app parse_lines] in E |- *.
    assert (Hrest : startswith (strip l) "MOVE" = false ->
                    p1 <> None \/ no_move pre = false).
    { intro Hl. destruct Hb as [Hb | Hb]; [left; exact Hb|].
      right. cbn [no_move forallb] in Hb. rewrite Hl in Hb. exact Hb. }
    destruct (String.eqb (strip l) EmptyString || startswith (strip l) ";")
      eqn:Skip.
    + apply (IH _ _ _ _ _ E). apply Hrest.
      destruct (startswith (strip l) "MOVE") eqn:M; [|reflexivity].
      destruct (move_line_facts _ M) as [S _]. congruence.
    + destruct (startswith (strip l) "MOVE") eqn:M.
      * destruct (extract_point hour_angle dms_angle (strip l)) as [p|e];
          cbv beta iota in E |- *; [|discriminate E].
        destruct (startswith (strip l) "DRAW").
        -- destruct (insert_row edge_id (Some p) p) as [f|row];
             cbv beta iota in E |- *; [discriminate E|].
           apply (IH _ _ _ _ _ E). left. discriminate.
        -- apply (IH _ _ _ _ _ E). left. discriminate.
      * cbv beta iota in E |- *.
        destruct (startswith (strip l) "DRAW").
        -- destruct (extract_point hour_angle dms_angle (strip l)) as [p2|e];
             cbv beta iota in E |- *; [|discriminate E].
           destruct (insert_row edge_id p1 p2) as [f|row];
             cbv beta iota in E |- *; [discriminate E|].
           apply (IH _ _ _ _ _ E). left. discriminate.
        -- apply (IH _ _ _ _ _ E). apply Hrest. reflexivity.
Qed.

(** X8. The [None] that [extract_point] returns for a [DRAW] line that does not
    match the pattern is not passed over: when the lines before it were
    parsed to their end and one of them is a [MOVE] line, such a [DRAW] line
    stops [parse_file] with [AttributeError]; the table is as the lines
    before it left it, and nothing of the rest of the file is inserted. *)
Theorem parse_file_malformed_draw :
  forall (pre : list string) (d : string) (rest : list string)
         (db : list MilkywayRow) (edge_id last : Z) (db' : list MilkywayRow),
    parse_file hour_angle dms_angle pre db edge_id = (inr last, db') ->
    no_move pre = false ->
    startswith (strip d) "DRAW" = true ->
    search_point_pattern (strip d) = None ->
    parse_file hour_angle dms_angle (pre ++ d :: rest) db edge_id
    = (inl (Raised AttributeError), db').
Proof.
  intros pre d rest db edge_id last db' E Hm D Sd. unfold parse_file in *.
  apply (parse_lines_then_malformed_draw d rest D Sd pre None db edge_id
           last db' E).
  right. exact Hm.
Qed.

End ParseFileProperties.

Section ParseFileInstances.

Import Milkyway MilkywayFile.
Local Open Scope Z_scope.

Lemma parse_file_polyline_instance :
  no_move ["DRAW 01 00 00, 11 00"; "; Orion arm"; "DRAW 02 00 00, 12 00"]%string
  = true
  /\ exists rows,
       snd (parse_file HourAngle_to_degrees DMSAngle_to_degrees
              ["MOVE 00 00 00, 10 00"; "DRAW 01 00 00, 11 00"; "; Orion arm";
               "DRAW 02 00 00, 12 00"]%string [] 7)
       = ([] ++ rows)%list
       /\ Sorted joined rows.
Proof.
  assert (H : no_move ["DRAW 01 00 00, 11 00"; "; Orion arm";
                       "DRAW 02 00 00, 12 00"]%string = true) by reflexivity.
  split; [exact H|].
  exact (parse_file_polyline HourAngle_to_degrees DMSAngle_to_degrees
           "MOVE 00 00 00, 10 00"
           ["DRAW 01 00 00, 11 00"; "; Orion arm"; "DRAW 02 00 00, 12 00"]%string
           [] 7 H).
Defined.


Lemma parse_file_malformed_draw_instance :
  parse_file HourAngle_to_degrees DMSAngle_to_degrees
    ["MOVE 00 00 00, 10 00"; "DRAW 01 00 00, 11 00"]%string [] 7
  = (inr 8,
     [mkMilkywayRow 7 (0 # 216000) (600 # 60) (3240000 # 216000) (660 # 60)])
  /\ no_move ["MOVE 00 00 00, 10 00"; "DRAW 01 00 00, 11 00"]%string = false
  /\ startswith (strip "DRAW 1 0 0, 1 0") "DRAW" = true
  /\ search_point_pattern (strip "DRAW 1 0 0, 1 0") = None
  /\ parse_file HourAngle_to_degrees DMSAngle_to_degrees
       (["MOVE 00 00 00, 10 00"%string; "DRAW 01 00 00, 11 00"%string] ++
        "DRAW 1 0 0, 1 0"%string :: ["DRAW 02 00 00, 12 00"%string])%list
       [] 7
     = (inl (Raised AttributeError),
        [mkMilkywayRow 7 (0 # 216000) (600 # 60) (3240000 # 216000) (660 # 60)]).
Proof.
  assert (P : parse_file HourAngle_to_degrees DMSAngle_to_degrees
                ["MOVE 00 00 00, 10 00"; "DRAW 01 00 00, 11 00"]%string [] 7
              = (inr 8,
                 [mkMilkywayRow 7 (0 # 216000) (600 # 60)
                    (3240000 # 216000) (660 # 60)]))
    by reflexivity.
  assert (M : no_move ["MOVE 00 00 00, 10 00"; "DRAW 01 00 00, 11 00"]%string
              = false) by reflexivity.
  assert (D : startswith (strip "DRAW 1 0 0, 1 0") "DRAW" = true)
    by reflexivity.
  assert (S : search_point_pattern (strip "DRAW 1 0 0, 1 0") = None)
    by reflexivity.
  split; [exact P|]. split; [exact M|]. split; [exact D|]. split; [exact S|].
  exact (parse_file_malformed_draw HourAngle_to_degrees DMSAngle_to_degrees
           ["MOVE 00 00 00, 10 00"; "DRAW 01 00 00, 11 00"]%string
           "DRAW 1 0 0, 1 0" ["DRAW 02 00 00, 12 00"]%string [] 7 8 _ P M D S).
Defined.

End ParseFileInstances.

(** ** Magnitudes, separations and symbol sizes *)

Section MagnitudesAndSizes.

Import StarsMore MapmakerMore.
Local Open Scope R_scope.

Lemma ln_10_pos : 0 < ln 10.
Proof. rewrite <- ln_1. apply ln_increasing; rlra. Qed.

Lemma pow10_pos (x : R) : 0 < pow10 x.
Proof. unfold pow10, Rpower. apply exp_pos. Qed.

Lemma log10_pow10 (x : R) : log10 (pow10 x) = x.
Proof.
  unfold log10, pow10, Rpower. rewrite ln_exp.
  pose proof ln_10_pos. field. rlra.
Qed.

Lemma log10_lt (a b : R) : 0 < a -> a < b -> log10 a < log10 b.
Proof.
  intros Ha Hab. unfold log10. pose proof ln_10_pos as H10.
  apply Rmult_lt_compat_r.
  - apply Rinv_0_lt_compat. exact H10.
  - apply ln_increasing; assumption.
Qed.

Lemma log10_le (a b : R) : 0 < a -> a <= b -> log10 a <= log10 b.
Proof.
  intros Ha [Hab | ->].
  - left. apply log10_lt; assumption.
  - right. reflexivity.
Qed.

Lemma log10_double (a : R) : 0 < a -> log10 (2 * a) = log10 2 + log10 a.
Proof.
  intro Ha. unfold log10. rewrite ln_mult by rlra.
  pose proof ln_10_pos. field. rlra.
Qed.

Lemma pow10_le (x y : R) : x <= y -> pow10 x <= pow10 y.
Proof.
  intros [H | ->]; [left | right; reflexivity].
  unfold pow10, Rpower. apply exp_increasing.
  apply Rmult_lt_compat_r; [apply ln_10_pos | exact H].
Qed.

(** The whole is brighter than the brighter part by at most
    [2.5 * log10(2)] magnitudes. *)
Lemma sum_magnitudes_lower (m1 m2 : R) :
  m1 <= m2 -> m1 - 2.5 * log10 2 <= sum_magnitudes m1 m2.
Proof.
  intro H. unfold sum_magnitudes.
  set (a := pow10 (- m1 / 2.5)). set (b := pow10 (- m2 / 2.5)).
  assert (Ha : 0 < a) by apply pow10_pos.
  assert (Hb : 0 < b) by apply pow10_pos.
  assert (Hba : b <= a) by (apply pow10_le; rlra).
  assert (L : log10 (a + b) <= log10 2 + log10 a).
  { rewrite <- log10_double by exact Ha. apply log10_le; rlra. }
  unfold a in L at 2. rewrite log10_pow10 in L. rlra.
Qed.

Lemma sum_magnitudes_comm (m1 m2 : R) :
  sum_magnitudes m1 m2 = sum_magnitudes m2 m1.
Proof. unfold sum_magnitudes. rewrite Rplus_comm. reflexivity. Qed.

Lemma sum_magnitudes_lt_l (m1 m2 : R) : sum_magnitudes m1 m2 < m1.
Proof.
  unfold sum_magnitudes.
  set (a := pow10 (- m1 / 2.5)). set (b := pow10 (- m2 / 2.5)).
  assert (Ha : 0 < a) by apply pow10_pos.
  assert (Hb : 0 < b) by apply pow10_pos.
  assert (L : log10 a < log10 (a + b)) by (apply log10_lt; rlra).
  unfold a in L at 1. rewrite log10_pow10 in L. rlra.
Qed.

(** X9. [sum_magnitudes]: two stars together are brighter than either one, by
    at most [2.5 * log10(2)] magnitudes over the brighter of the two; the
    order of the two does not matter. *)
Theorem sum_magnitudes_bounds :
  forall m1 m2 : R,
    Rmin m1 m2 - 2.5 * log10 2 <= sum_magnitudes m1 m2
    /\ sum_magnitudes m1 m2 < Rmin m1 m2
    /\ sum_magnitudes m1 m2 = sum_magnitudes m2 m1.
Proof.
  intros m1 m2.
  pose proof (sum_magnitudes_lt_l m1 m2) as L1.
  pose proof (sum_magnitudes_lt_l m2 m1) as L2.
  rewrite (sum_magnitudes_comm m2 m1) in L2.
  split; [|split; [|apply sum_magnitudes_comm]].
  - unfold Rmin. destruct (Rle_dec m1 m2) as [H|H].
    + apply sum_magnitudes_lower. exact H.
    + rewrite sum_magnitudes_comm. apply sum_magnitudes_lower. rlra.
  - unfold Rmin. destruct (Rle_dec m1 m2); assumption.
Qed.

(** X10. [angular_separation_seconds_of_arc] is never negative and never more
    than the separation computed without the cosine factor. *)
Theorem angular_separation_bounds :
  forall ra1 de1 ra2 de2 : R,
    0 <= angular_separation_seconds_of_arc ra1 de1 ra2 de2
    /\ angular_separation_seconds_of_arc ra1 de1 ra2 de2
       <= 3600 * sqrt ((ra1 - ra2) ^ 2 + (de1 - de2) ^ 2).
Proof.
  intros ra1 de1 ra2 de2. unfold angular_separation_seconds_of_arc. cbv zeta.
  set (c := cos (PyMath.radians de2)).
  pose proof (COS_bound (PyMath.radians de2)) as [Hlo Hhi]. fold c in Hlo, Hhi.
  split.
  - apply Rmult_le_pos; [rlra | apply sqrt_pos].
  - apply Rmult_le_compat_l; [rlra|].
    apply sqrt_le_1.
    + pose proof (pow2_ge_0 ((ra1 - ra2) * c)). pose proof (pow2_ge_0 (de1 - de2)).
      rlra.
    + pose proof (pow2_ge_0 (ra1 - ra2)). pose proof (pow2_ge_0 (de1 - de2)).
      rlra.
    + apply Rplus_le_compat_r.
      replace (((ra1 - ra2) * c) ^ 2) with ((ra1 - ra2) ^ 2 * (c ^ 2)) by ring.
      pose proof (pow2_ge_0 (ra1 - ra2)) as Hd.
      assert (Hc : c ^ 2 <= 1) by nra.
      nra.
Qed.

(** X11. Along a meridian (equal right ascensions) the separation is the
    difference of the declinations, in seconds of arc; it is zero for two
    identical positions. *)
Theorem angular_separation_same_right_ascension :
  forall ra de1 de2 : R,
    angular_separation_seconds_of_arc ra de1 ra de2 = 3600 * Rabs (de1 - de2).
Proof.
  intros ra de1 de2. unfold angular_separation_seconds_of_arc. cbv zeta.
  f_equal.
  replace (((ra - ra) * cos (PyMath.radians de2)) ^ 2 + (de1 - de2) ^ 2)
    with ((de1 - de2)²) by (unfold Rsqr; ring).
  apply sqrt_Rsqr_abs.
Qed.

Lemma clamped_size (paper_width m : R) :
  magnitude_to_size paper_width m
  = 6.1815 * paper_width / 465 * exp (-0.27 * Rmax m (-0.5)).
Proof.
  unfold magnitude_to_size, Rmax. cbv zeta.
  destruct (Rlt_dec m (-0.5)) as [H|H]; destruct (Rle_dec m (-0.5)) as [H'|H'];
    try reflexivity; try rlra.
  replace m with (-0.5) by rlra. reflexivity.
Qed.

(** X12. [magnitude_to_size] on a map of positive width: the symbol size is
    positive, a fainter star never gets a larger symbol, and all stars of
    magnitude [-0.5] or brighter get the same size. *)
Theorem magnitude_to_size_monotone :
  forall paper_width m1 m2 : R,
    0 < paper_width ->
    m1 <= m2 ->
    0 < magnitude_to_size paper_width m2
    /\ magnitude_to_size paper_width m2 <= magnitude_to_size paper_width m1
    /\ (m2 <= -0.5 ->
        magnitude_to_size paper_width m1 = magnitude_to_size paper_width m2).
Proof.
  intros w m1 m2 Hw H. rewrite !clamped_size.
  assert (Hs : 0 < 6.1815 * w / 465) by rlra.
  split; [|split].
  - apply Rmult_lt_0_compat; [exact Hs | apply exp_pos].
  - apply Rmult_le_compat_l; [rlra|].
    assert (Hm : Rmax m1 (-0.5) <= Rmax m2 (-0.5)).
    { apply Rmax_lub.
      - eapply Rle_trans; [exact H | apply Rmax_l].
      - apply Rmax_r. }
    destruct Hm as [Hm | Hm].
    + left. apply exp_increasing. rlra.
    + rewrite Hm. right. reflexivity.
  - intro Hb. rewrite !Rmax_right by rlra. reflexivity.
Qed.

Lemma magnitude_to_size_monotone_instance :
  0 < 297 /\ 1 <= 6
  /\ 0 < magnitude_to_size 297 6
  /\ magnitude_to_size 297 6 <= magnitude_to_size 297 1.
Proof.
  assert (Hw : 0 < 297) by rlra.
  assert (H : 1 <= 6) by rlra.
  split; [exact Hw|]. split; [exact H|].
  destruct (magnitude_to_size_monotone 297 1 6 Hw H) as (P & L & _).
  split; [exact P | exact L].
Defined.

End MagnitudesAndSizes.

(** ** Propagation without displacement *)

Section StationaryPropagation.

Import Stars.
Local Open Scope R_scope.

(** X13. [propagate_position] over no elapsed time returns the position it was
    given, whatever the proper motion. *)
Theorem propagate_position_no_elapsed_time :
  forall (epoch : Type) (julian_year_difference : epoch -> epoch -> R)
         (from_epoch to_epoch : epoch) (right_ascension declination : R)
         (proper_motion_ra proper_motion_dec : option R),
    julian_year_difference to_epoch from_epoch = 0 ->
    cos declination <> 0 ->
    propagate_position epoch julian_year_difference from_epoch to_epoch
      right_ascension declination proper_motion_ra proper_motion_dec
    = Return (right_ascension, declination).
Proof.
  intros epoch jyd from_epoch to_epoch ra dec pm_ra pm_dec Hdt Hcos.
  unfold propagate_position.
  destruct (not_ pm_dec || not_ pm_ra) eqn:G; [reflexivity|].
  apply orb_false_iff in G. destruct G as [Gd Gr].
  destruct pm_ra as [a|]; [|discriminate Gr].
  destruct pm_dec as [d|]; [|discriminate Gd].
  destruct (Req_dec_T (cos dec) 0) as [E|_]; [contradiction|].
  rewrite Hdt. f_equal. f_equal.
  - unfold Rdiv. ring.
  - ring.
Qed.

Lemma propagate_position_no_elapsed_time_instance :
  (fun _ _ : unit => 0) tt tt = 0
  /\ cos 0 <> 0
  /\ propagate_position unit (fun _ _ => 0) tt tt 10 0 (Some 3) (Some 5)
     = Return (10, 0).
Proof.
  assert (Hdt : (fun _ _ : unit => 0) tt tt = 0) by reflexivity.
  assert (Hcos : cos 0 <> 0) by (rewrite cos_0; rlra).
  split; [exact Hdt|]. split; [exact Hcos|].
  exact (propagate_position_no_elapsed_time unit (fun _ _ => 0) tt tt 10 0
           (Some 3) (Some 5) Hdt Hcos).
Defined.

Lemma radians_degrees (x : R) : PyMath.degrees (PyMath.radians x) = x.
Proof.
  unfold PyMath.degrees, PyMath.radians. pose proof PI_RGT_0. field. rlra.
Qed.

Lemma radians_bounds (x lo hi : R) :
  lo <= x < hi ->
  PyMath.radians lo <= PyMath.radians x < PyMath.radians hi.
Proof.
  intros [H1 H2]. unfold PyMath.radians. pose proof PI_RGT_0 as Hpi.
  assert (Hk : 0 < PI / 180) by rlra.
  replace (lo * PI / 180) with (lo * (PI / 180)) by (unfold Rdiv; ring).
  replace (x * PI / 180) with (x * (PI / 180)) by (unfold Rdiv; ring).
  replace (hi * PI / 180) with (hi * (PI / 180)) by (unfold Rdiv; ring).
  split.
  - apply Rmult_le_compat_r; rlra.
  - apply Rmult_lt_compat_r; rlra.
Qed.

Lemma scaled_quotient (c s k : R) : 0 < c -> k <> 0 -> c * s / (c * k) = s / k.
Proof. intros Hc Hk. field. split; rlra. Qed.

(** The angle of a point given in polar form. *)
Lemma atan2_polar (c a : R) :
  0 < c -> - PI < a <= PI ->
  PyMath.atan2 (c * sin a) (c * cos a) = a.
Proof.
  intros Hc [Hlo Hhi]. pose proof PI_RGT_0 as Hpi.
  unfold PyMath.atan2.
  destruct (Rlt_le_dec a (- (PI / 2))) as [H1 | H1].
  - (* third quadrant *)
    assert (Hcos : cos a < 0).
    { rewrite <- cos_neg. apply cos_lt_0; rlra. }
    assert (Hsin : sin a < 0) by (apply sin_lt_0_var; rlra).
    assert (Hx : c * cos a < 0) by nra.
    assert (Hy : c * sin a < 0) by nra.
    destruct (Rlt_dec 0 (c * cos a)); [rlra|].
    destruct (Rlt_dec (c * cos a) 0); [|rlra].
    destruct (Rle_dec 0 (c * sin a)); [rlra|].
    rewrite scaled_quotient by rlra.
    replace (sin a / cos a) with (tan (a + PI)).
    + rewrite atan_tan by rlra. ring.
    + unfold tan. rewrite neg_sin, neg_cos. field. rlra.
  - destruct (Req_dec_T a (- (PI / 2))) as [E | N1].
    + (* straight down *)
      subst a. rewrite cos_neg, sin_neg, cos_PI2, sin_PI2.
      replace (c * 0) with 0 by ring.
      destruct (Rlt_dec 0 0); [rlra|].
      destruct (Rlt_dec 0 (c * - (1))); [rlra|].
      destruct (Rlt_dec (c * - (1)) 0); [reflexivity | rlra].
    + destruct (Rlt_le_dec a (PI / 2)) as [H2 | H2].
      * (* right half plane *)
        assert (Hcos : 0 < cos a) by (apply cos_gt_0; rlra).
        assert (Hx : 0 < c * cos a) by nra.
        destruct (Rlt_dec 0 (c * cos a)); [|rlra].
        rewrite scaled_quotient by rlra.
        change (sin a / cos a) with (tan a).
        apply atan_tan. rlra.
      * destruct (Req_dec_T a (PI / 2)) as [E | N2].
        -- (* straight up *)
           subst a. rewrite cos_PI2, sin_PI2.
           replace (c * 0) with 0 by ring.
           destruct (Rlt_dec 0 0); [rlra|].
           destruct (Rlt_dec 0 (c * 1)); [reflexivity | rlra].
        -- (* second quadrant *)
           assert (Hcos : cos a < 0) by (apply cos_lt_0; rlra).
           assert (Hsin : 0 <= sin a) by (apply sin_ge_0; rlra).
           assert (Hx : c * cos a < 0) by nra.
           assert (Hy : 0 <= c * sin a) by nra.
           destruct (Rlt_dec 0 (c * cos a)); [rlra|].
           destruct (Rlt_dec (c * cos a) 0); [|rlra].
           destruct (Rle_dec 0 (c * sin a)); [|rlra].
           rewrite scaled_quotient by rlra.
           replace (sin a / cos a) with (tan (a - PI)).
           ++ rewrite atan_tan by rlra. ring.
           ++ unfold tan.
              replace (sin (a - PI)) with (- sin (a - PI + PI))
                by (rewrite neg_sin; ring).
              replace (cos (a - PI)) with (- cos (a - PI + PI))
                by (rewrite neg_cos; ring).
              replace (a - PI + PI) with a by ring.
              field. rlra.
Qed.

End StationaryPropagation.

Section StationaryPropagation2.

Import Stars.
Local Open Scope R_scope.

Lemma sin_minus_turn (a : R) : sin (a - 2 * PI) = sin a.
Proof.
  replace a with (a - 2 * PI + PI + PI) at 2 by ring.
  rewrite !neg_sin. ring.
Qed.

Lemma cos_minus_turn (a : R) : cos (a - 2 * PI) = cos a.
Proof.
  replace a with (a - 2 * PI + PI + PI) at 2 by ring.
  rewrite !neg_cos. ring.
Qed.

Lemma degrees_minus_turn (a : R) :
  PyMath.degrees (a - 2 * PI) = PyMath.degrees a - 360.
Proof. unfold PyMath.degrees. pose proof PI_RGT_0. field. rlra. Qed.

(** From the sphere to Cartesian coordinates and back. *)
Lemma spherical_of_cartesian (d a e : R) :
  0 < d -> 0 <= a < 2 * PI -> - (PI / 2) < e < PI / 2 ->
  let x := d * cos e * cos a in
  let y := d * cos e * sin a in
  let z := d * sin e in
  (if Rlt_dec (PyMath.degrees (PyMath.atan2 y x)) 0
   then PyMath.degrees (PyMath.atan2 y x) + 360
   else PyMath.degrees (PyMath.atan2 y x)) = PyMath.degrees a
  /\ PyMath.degrees (PyMath.atan2 z (sqrt (x ^ 2 + y ^ 2))) = PyMath.degrees e.
Proof.
  intros Hd [Ha1 Ha2] [He1 He2] x y z. pose proof PI_RGT_0 as Hpi.
  assert (Hcos : 0 < cos e) by (apply cos_gt_0; assumption).
  assert (Hc : 0 < d * cos e) by nra.
  split.
  - destruct (Rle_lt_dec a PI) as [H | H].
    + unfold x, y. rewrite atan2_polar by (try exact Hc; rlra).
      assert (0 <= PyMath.degrees a).
      { replace 0 with (PyMath.degrees 0)
          by (unfold PyMath.degrees; field; rlra).
        apply degrees_le. exact Ha1. }
      destruct (Rlt_dec (PyMath.degrees a) 0); [rlra | reflexivity].
    + unfold x, y.
      rewrite <- (sin_minus_turn a), <- (cos_minus_turn a).
      rewrite atan2_polar by (try exact Hc; rlra).
      rewrite degrees_minus_turn.
      assert (PyMath.degrees a < 360).
      { replace 360 with (PyMath.degrees (2 * PI))
          by (unfold PyMath.degrees; field; rlra).
        apply degrees_lt. exact Ha2. }
      destruct (Rlt_dec (PyMath.degrees a - 360) 0); [ring | rlra].
  - f_equal.
    replace (x ^ 2 + y ^ 2) with ((d * cos e) * (d * cos e)).
    + rewrite sqrt_square by rlra. unfold z.
      apply atan2_polar; [exact Hd | rlra].
    + unfold x, y. pose proof (sin2_cos2 a) as S. unfold Rsqr in S.
      replace (d * cos e * (d * cos e))
        with (d * cos e * (d * cos e) * (sin a * sin a + cos a * cos a))
        by (rewrite S; ring).
      ring.
Qed.

(** X14. [propagate_position2] over no elapsed time, or with no proper motion
    and no radial velocity, returns the position it was given, for a
    right ascension in [[0, 360)], a declination strictly between the
    poles and a positive distance. *)
Theorem propagate_position2_stationary :
  forall (epoch : Type) (julian_year_difference : epoch -> epoch -> R)
         (from_epoch to_epoch : epoch)
         (right_ascension declination proper_motion_ra proper_motion_dec : R)
         (distance radial_velocity : R),
    0 <= right_ascension < 360 ->
    -90 < declination < 90 ->
    0 < distance ->
    (julian_year_difference to_epoch from_epoch = 0
     \/ (proper_motion_ra = 0 /\ proper_motion_dec = 0 /\ radial_velocity = 0)) ->
    propagate_position2 epoch julian_year_difference from_epoch to_epoch
      right_ascension declination proper_motion_ra proper_motion_dec
      distance radial_velocity
    = (right_ascension, declination).
Proof.
  intros epoch jyd from_epoch to_epoch ra dec pm_ra pm_dec d rv
         Hra Hdec Hd Hstill.
  pose proof PI_RGT_0 as Hpi.
  assert (Ha : 0 <= PyMath.radians ra < 2 * PI).
  { pose proof (radians_bounds ra 0 360 Hra) as B.
    unfold PyMath.radians in *. rlra. }
  assert (He : - (PI / 2) < PyMath.radians dec < PI / 2).
  { destruct Hdec as [D1 D2].
    assert (B1 : -90 <= -90 < dec) by rlra.
    assert (B2 : dec <= dec < 90) by rlra.
    apply radians_bounds in B1. apply radians_bounds in B2.
    unfold PyMath.radians in *. rlra. }
  destruct (spherical_of_cartesian d (PyMath.radians ra) (PyMath.radians dec)
              Hd Ha He) as [Era Edec].
  rewrite !radians_degrees in Era, Edec.
  unfold propagate_position2. cbv zeta.
  match goal with
  | |- (if Rlt_dec (PyMath.degrees (PyMath.atan2 ?Y ?X)) 0 then _ else _,
        PyMath.degrees (PyMath.atan2 ?Z _)) = _ =>
      assert (EX : X = d * cos (PyMath.radians dec) * cos (PyMath.radians ra))
        by (destruct Hstill as [-> | (-> & -> & ->)]; unfold Rdiv; ring);
      assert (EY : Y = d * cos (PyMath.radians dec) * sin (PyMath.radians ra))
        by (destruct Hstill as [-> | (-> & -> & ->)]; unfold Rdiv; ring);
      assert (EZ : Z = d * sin (PyMath.radians dec))
        by (destruct Hstill as [-> | (-> & -> & ->)]; unfold Rdiv; ring);
      rewrite EX, EY, EZ
  end.
  rewrite Era, Edec. reflexivity.
Qed.

Lemma propagate_position2_stationary_instance :
  0 <= 350 < 360
  /\ -90 < 20 < 90
  /\ 0 < 1
  /\ ((fun _ _ : unit => 25) tt tt = 0 \/ (0 = 0 /\ 0 = 0 /\ 0 = 0))
  /\ propagate_position2 unit (fun _ _ => 25) tt tt 350 20 0 0 1 0
     = (350, 20).
Proof.
  assert (Hra : 0 <= 350 < 360) by rlra.
  assert (Hdec : -90 < 20 < 90) by rlra.
  assert (Hd : 0 < 1) by rlra.
  assert (Hs : (fun _ _ : unit => 25) tt tt = 0 \/ (0 = 0 /\ 0 = 0 /\ 0 = 0)).
  { right. repeat split; reflexivity. }
  split; [exact Hra|]. split; [exact Hdec|]. split; [exact Hd|].
  split; [exact Hs|].
  exact (propagate_position2_stationary unit (fun _ _ => 25) tt tt
           350 20 0 0 1 0 Hra Hdec Hd Hs).
Defined.

End StationaryPropagation2.

(** ** More on the two catalogue queries *)

Section CatalogueQueries.

Import Stars Milkyway Examples.
Local Open Scope Q_scope.



(** X16. A call of [select_stars] that does not raise, and every call of
    [get_milky_way_boundary_for_area], sends exactly one query and leaves
    both tables as they were. *)
Theorem one_query_per_call :
  forall w,
    (forall magnitude constellation ra_range dec_range stars w',
        select_stars magnitude constellation ra_range dec_range w
        = (Return stars, w') ->
        skymap_stars w' = skymap_stars w
        /\ milkyway w' = milkyway w
        /\ exists q, issued w' = q :: issued w)
    /\
    (forall min_longitude max_longitude min_latitude max_latitude,
        exists lines w',
          get_milky_way_boundary_for_area
            min_longitude max_longitude min_latitude max_latitude w
          = (Return lines, w')
          /\ skymap_stars w' = skymap_stars w
          /\ milkyway w' = milkyway w
          /\ exists q, issued w' = q :: issued w).
Proof.
  intro w. split.
  - intros magnitude constellation ra_range dec_range stars w'.
    unfold select_stars, mbind, ret, raise, query_stars.
    destruct dec_range as [[min_dec max_dec]|];
      [destruct (illegal_dec_range min_dec max_dec); [discriminate|]|];
      intro E; injection E as _ <-; simpl; eauto.
  - intros. unfold get_milky_way_boundary_for_area, mbind, ret, query_milkyway.
    eexists; eexists. split; [reflexivity|]. simpl. eauto.
Qed.

Lemma select_stars_equal_ends_instance :
  ensure_angle_range 350 == ensure_angle_range 710
  /\ legal_dec_range None
  /\ exists stars all w1 w2,
       select_stars 5 None (Some (350, 710)) None seam_sky = (Return stars, w1)
       /\ select_stars 5 None None None seam_sky = (Return all, w2)
       /\ forall s, In s stars <-> In s all.
Proof.
  assert (E : ensure_angle_range 350 == ensure_angle_range 710) by reflexivity.
  split; [exact E|]. split; [exact I|].
  exact (select_stars_equal_ends_full_circle 5 None 350 710 None seam_sky E I).
Defined.

End CatalogueQueries.

Section WholeTurns.

Import Stars Examples.
Local Open Scope Q_scope.

Lemma Qfloor_add_Z (q : Q) (k : Z) :
  Qfloor (q + inject_Z k) = (Qfloor q + k)%Z.
Proof.
  destruct q as [n d]. unfold Qfloor, Qplus, inject_Z. simpl.
  rewrite Pos.mul_1_r, Z.mul_1_r. apply Z.div_add. lia.
Qed.

Lemma ensure_angle_range_turns (x : Q) (k : Z) :
  ensure_angle_range (x + 360 * inject_Z k) == ensure_angle_range x.
Proof.
  unfold ensure_angle_range.
  assert (E : (x + 360 * inject_Z k) / 360 == x / 360 + inject_Z k) by field.
  rewrite (Qfloor_comp _ _ E), Qfloor_add_Z, inject_Z_plus. ring.
Qed.

Lemma le_comp (a a' b b' : Q) : a == a' -> b == b' -> Py.le a b = Py.le a' b'.
Proof.
  intros Ha Hb. destruct (Py.le a' b') eqn:E.
  - apply le_true. apply le_true in E. rewrite Ha, Hb. exact E.
  - apply le_false. apply le_false in E. rewrite Ha, Hb. exact E.
Qed.

Lemma lt_comp (a a' b b' : Q) : a == a' -> b == b' -> Py.lt a b = Py.lt a' b'.
Proof.
  intros Ha Hb. unfold Py.lt. f_equal. apply le_comp; assumption.
Qed.

(** X18. [select_stars] reads a right-ascension range modulo whole turns: adding
    multiples of 360 to either end changes neither the stars returned nor
    their order. *)
Theorem select_stars_whole_turns :
  forall magnitude constellation min_ra max_ra dec_range w (j k : Z),
    fst (select_stars magnitude constellation
           (Some (min_ra + 360 * inject_Z j, max_ra + 360 * inject_Z k))
           dec_range w)
    = fst (select_stars magnitude constellation (Some (min_ra, max_ra))
             dec_range w).
Proof.
  intros magnitude constellation min_ra max_ra dec_range w j k.
  unfold select_stars, mbind, ret, raise, query_stars.
  pose proof (ensure_angle_range_turns min_ra j) as Ha.
  pose proof (ensure_angle_range_turns max_ra k) as Hb.
  revert Ha Hb.
  generalize (ensure_angle_range (min_ra + 360 * inject_Z j)).
  generalize (ensure_angle_range (max_ra + 360 * inject_Z k)).
  generalize (ensure_angle_range min_ra).
  generalize (ensure_angle_range max_ra).
  intros b a b' a' Ha Hb.
  rewrite (lt_comp a' a b' b Ha Hb), (lt_comp b' b a' a Hb Ha).
  destruct dec_range as [[min_dec max_dec]|];
    [destruct (illegal_dec_range min_dec max_dec); [reflexivity|]|];
    cbn [fst]; f_equal; f_equal; unfold Sql.select; f_equal;
    apply filter_ext; intro r;
    destruct constellation as [name|];
    try destruct (String.eqb name EmptyString);
    destruct (Py.lt a b); try destruct (Py.lt b a);
    cbn [Sql.holds star_value star_string];
    rewrite ?(le_comp a' a _ _ Ha (Qeq_refl _)),
            ?(le_comp _ _ b' b (Qeq_refl _) Hb);
    reflexivity.
Qed.

Lemma one_query_per_call_instance :
  exists stars w',
    select_stars 5 None (Some (350, 10)) None seam_sky = (Return stars, w')
    /\ skymap_stars w' = skymap_stars seam_sky
    /\ milkyway w' = milkyway seam_sky
    /\ exists q, issued w' = q :: issued seam_sky.
Proof.
  eexists; eexists. split; [reflexivity|].
  exact (proj1 (one_query_per_call seam_sky) 5 None (Some (350, 10)) None
           _ _ eq_refl).
Defined.

End WholeTurns.

(** ** More on the grid *)

Section GridCoverage.

Import Mapmaker.
Local Open Scope Z_scope.

Lemma arithmetic_progression_sorted (start step : Z) (n a : nat) :
  0 < step ->
  StronglySorted Z.lt
    (map (fun k => start + Z.of_nat k * step) (seq a n)).
Proof.
  intro H. revert a. induction n as [|n IH]; intro a; simpl.
  - constructor.
  - constructor; [apply IH|].
    rewrite Forall_map. apply Forall_forall. intros k Hk.
    apply in_seq in Hk. nia.
Qed.

Lemma range_sorted (start stop step : Z) (l : list Z) :
  0 < step -> Py.range start stop step = Return l -> StronglySorted Z.lt l.
Proof.
  intros H E. rewrite range_positive_step in E by exact H.
  injection E as <-. apply arithmetic_progression_sorted. exact H.
Qed.

Lemma aligned_multiples (first increment v : Z) :
  0 < increment -> (increment | first) ->
  ((exists k, 0 <= k /\ v = first + k * increment)
   <-> (increment | v) /\ first <= v).
Proof.
  intros Hi [f ->]. split.
  - intros (k & Hk & ->). split; [exists (f + k); ring | nia].
  - intros [[q ->] Hle]. exists (q - f). split; [nia | ring].
Qed.

Lemma integer_below_int (v : Z) (x : Q) : (inject_Z v <= x)%Q -> v <= Py.int x.
Proof.
  intro H. pose proof (int_succ_gt x) as G.
  assert (L : (inject_Z v < inject_Z (Py.int x + 1))%Q)
    by (eapply Qle_lt_trans; eassumption).
  rewrite <- Zlt_Qlt in L. lia.
Qed.

(** X19. For a positive increment [draw_parallels] draws, in ascending order,
    exactly the multiples of the increment from the aligned floor of the
    minimum latitude up to [int(max_latitude)]; so every multiple of the
    increment between the two latitudes of the viewport gets its
    parallel. *)
Theorem draw_parallels_coverage :
  forall (viewport_min viewport_max : Q) (increment : Z),
    0 < increment ->
    let first := increment * Qfloor (viewport_min / inject_Z increment) in
    exists latitudes,
      draw_parallels viewport_min viewport_max increment = Return latitudes
      /\ StronglySorted Z.lt latitudes
      /\ (forall v, In v latitudes <->
                    (increment | v) /\ first <= v <= Py.int viewport_max)
      /\ (forall v, (increment | v) ->
                    (viewport_min <= inject_Z v <= viewport_max)%Q ->
                    In v latitudes).
Proof.
  intros viewport_min viewport_max increment Hi first.
  unfold draw_parallels.
  rewrite aligned_floor_value by lia. cbn [Py.bind]. fold first.
  destruct (range_hd first (Py.int viewport_max + 1) increment Hi)
    as (l & E & _).
  exists l. split; [exact E|].
  split; [exact (range_sorted _ _ _ _ Hi E)|].
  assert (Hin : forall v, In v l <->
                          (increment | v) /\ first <= v <= Py.int viewport_max).
  { intro v. rewrite (range_In _ _ _ _ Hi E v).
    rewrite (aligned_multiples first increment v Hi)
      by (exists (Qfloor (viewport_min / inject_Z increment)); unfold first; ring).
    intuition lia. }
  split; [exact Hin|].
  intros v Hdiv [Hlo Hhi]. apply Hin. split; [exact Hdiv|]. split.
  - rewrite Zle_Qle. eapply Qle_trans; [|exact Hlo].
    apply aligned_floor_le. exact Hi.
  - apply integer_below_int. exact Hhi.
Qed.

Lemma draw_parallels_coverage_instance :
  0 < 10
  /\ exists latitudes,
       draw_parallels (-37) 53 10 = Return latitudes
       /\ StronglySorted Z.lt latitudes
       /\ (forall v, In v latitudes <->
                     (10 | v) /\ -40 <= v <= 53)
       /\ (forall v, (10 | v) ->
                     (-37 <= inject_Z v <= 53)%Q -> In v latitudes).
Proof.
  assert (Hi : 0 < 10) by lia.
  split; [exact Hi|].
  exact (draw_parallels_coverage (-37) 53 10 Hi).
Defined.

(** X20. When the viewport spans exactly one turn from the aligned minimum
    ([int(max_longitude) - 360] equal to it), [draw_meridians] does not
    extend its bound: the bound is [int(max_longitude)], every meridian
    drawn lies below it, and no two of the meridians drawn are the same
    meridian of the sphere. *)
Theorem draw_meridians_full_turn :
  forall (viewport_min viewport_max : Q) (increment : Z),
    0 < increment ->
    Py.int viewport_max - 360
    = increment * Qfloor (viewport_min / inject_Z increment) ->
    meridian_stop (increment * Qfloor (viewport_min / inject_Z increment))
      viewport_max
    = Py.int viewport_max
    /\ exists longitudes,
         draw_meridians viewport_min viewport_max increment = Return longitudes
         /\ (forall v, In v longitudes -> v < Py.int viewport_max)
         /\ forall v w, In v longitudes -> In w longitudes ->
                        (v - w) mod 360 = 0 -> v = w.
Proof.
  intros viewport_min viewport_max increment Hi Hturn.
  unfold draw_meridians.
  rewrite aligned_floor_value by lia. cbn [Py.bind].
  set (first := increment * Qfloor (viewport_min / inject_Z increment)) in *.
  assert (Hstop : meridian_stop first viewport_max = Py.int viewport_max).
  { unfold meridian_stop.
    destruct (Z.ltb_spec (Py.int viewport_max - 360) first); [lia | reflexivity]. }
  split; [exact Hstop|].
  rewrite Hstop.
  destruct (range_hd first (Py.int viewport_max) increment Hi) as (l & E & _).
  exists l. split; [exact E|]. split.
  { intros v Hv. apply (range_In _ _ _ _ Hi E) in Hv. tauto. }
  intros v w Hv Hw Hmod.
  apply (range_In _ _ _ _ Hi E) in Hv. apply (range_In _ _ _ _ Hi E) in Hw.
  destruct Hv as [(kv & Hkv & Ev) Hv]. destruct Hw as [(kw & Hkw & Ew) Hw].
  apply Z.mod_divide in Hmod; [|lia]. destruct Hmod as [c Hc].
  nia.
Qed.

Lemma draw_meridians_full_turn_instance :
  0 < 15
  /\ Py.int 360 - 360 = 15 * Qfloor (0 / inject_Z 15)
  /\ meridian_stop 0 360 = 360
  /\ exists longitudes,
       draw_meridians 0 360 15 = Return longitudes
       /\ (forall v, In v longitudes -> v < 360)
       /\ forall v w, In v longitudes -> In w longitudes ->
                      (v - w) mod 360 = 0 -> v = w.
Proof.
  assert (Hi : 0 < 15) by lia.
  assert (Ht : Py.int 360 - 360 = 15 * Qfloor (0 / inject_Z 15))
    by reflexivity.
  split; [exact Hi|]. split; [exact Ht|].
  exact (draw_meridians_full_turn 0 360 15 Hi Ht).
Defined.

End GridCoverage.
